(** * Weekly workout scheduler: state model, mutation operations, derived views

    Shallow embedding of the [Scheduler] component.  A JavaScript string is
    modelled by the [string] of the bytes of its UTF-8 encoding, so that a
    character outside ASCII takes two or three bytes.  The JavaScript
    numbers that the component computes with (minutes, indices, set counts)
    are modelled by [Z], [NaN] by [None] in [option Z]: the model is that of
    the integers below 2^53 in magnitude, which JavaScript computes with
    exactly.  The React state is a record; a handler is a computation in a
    state monad over it, and [uuid()] draws the next identifier from a
    supply kept in the record. *)

From Stdlib Require Import ZArith Lia Ascii String.
From stdpp Require Import base option list strings pretty gmap sorting.

Local Open Scope string_scope.
Local Open Scope list_scope.
Local Open Scope Z_scope.

(** ** The built-ins of the language that the component calls *)

Module JS.

(** A JavaScript number as the component uses it: an integer below 2^53 in
    magnitude, or [NaN].  Numbers that are no integers, and the rounding and
    the infinities of larger ones, are outside the model; the properties
    that read numbers from arbitrary texts bound the length of the text. *)
Definition number := option Z.

Definition NaN : number := None.

(** [a % b] takes the sign of the dividend; [x % 0] is [NaN]. *)
Definition rem (a b : number) : number :=
  x ← a; y ← b; if decide (y = 0) then NaN else Some (Z.rem x y).

(** [Math.floor (a / b)] for integers [a] and [b]; division by zero gives
    an infinity or [NaN], [None] here. *)
Definition floor_div (a b : number) : number :=
  x ← a; y ← b; if decide (y = 0) then NaN else Some (x `div` y).

(** [n.toString()]. *)
Definition toString (n : number) : string :=
  match n with
  | Some z => pretty z
  | None => "NaN"
  end.

(** [s.padStart(n, c)] for a one-character filler [c]. *)
Definition padStart (n : nat) (c : ascii) (s : string) : string :=
  String.concat "" (replicate (n - String.length s)%nat (String c "")) +:+ s.

(** [s.split(c)] for a one-character separator: the pieces between the
    occurrences of [c], never an empty array. *)
Fixpoint split (c : ascii) (s : string) : list string :=
  match s with
  | "" => [""]
  | String a s' =>
      if decide (a = c) then "" :: split c s'
      else match split c s' with
           | p :: ps => String a p :: ps
           | [] => [String a ""]
           end
  end.

(** The white space and the line terminators that [trim] and [parseInt]
    strip, by the bytes of their UTF-8 encoding.  One byte: TAB, LF, VT, FF,
    CR and the space. *)
Definition is_white1 (a : ascii) : bool :=
  let x := nat_of_ascii a in
  bool_decide (9 ≤ x ≤ 13 ∨ x = 32)%nat.

(** Two bytes: U+00A0. *)
Definition is_white2 (a b : ascii) : bool :=
  bool_decide (nat_of_ascii a = 194 ∧ nat_of_ascii b = 160)%nat.

(** Three bytes: U+1680, U+2000 to U+200A, U+2028, U+2029, U+202F, U+205F,
    U+3000 and U+FEFF. *)
Definition is_white3 (a b c : ascii) : bool :=
  let x := nat_of_ascii a in
  let y := nat_of_ascii b in
  let z := nat_of_ascii c in
  bool_decide
    ((x = 225 ∧ y = 154 ∧ z = 128)
     ∨ (x = 226 ∧ y = 128 ∧ (128 ≤ z ≤ 138 ∨ z = 168 ∨ z = 169 ∨ z = 175))
     ∨ (x = 226 ∧ y = 129 ∧ z = 159)
     ∨ (x = 227 ∧ y = 128 ∧ z = 128)
     ∨ (x = 239 ∧ y = 187 ∧ z = 191))%nat.

(** A text cut into pieces: each white-space character is a piece marked
    [true], every other byte is a piece of its own marked [false]. *)
Fixpoint pieces (s : string) : list (bool * string) :=
  match s with
  | "" => []
  | String a s1 =>
      if is_white1 a then (true, String a "") :: pieces s1
      else
        match s1 with
        | "" => [(false, String a "")]
        | String b s2 =>
            if is_white2 a b then (true, String a (String b "")) :: pieces s2
            else
              match s2 with
              | "" => (false, String a "") :: pieces s1
              | String c s3 =>
                  if is_white3 a b c
                  then (true, String a (String b (String c ""))) :: pieces s3
                  else (false, String a "") :: pieces s1
              end
        end
  end.

Fixpoint drop_white (ps : list (bool * string)) : list (bool * string) :=
  match ps with
  | (true, _) :: ps' => drop_white ps'
  | _ => ps
  end.

Definition join (ps : list (bool * string)) : string :=
  foldr (λ p s, p.2 +:+ s) "" ps.

(** [s.trimStart()], as [parseInt] skips leading white space. *)
Definition trimStart (s : string) : string :=
  join (drop_white (pieces s)).

(** [s.trim()]. *)
Definition trim (s : string) : string :=
  join (reverse (drop_white (reverse (drop_white (pieces s))))).

Definition digit (c : ascii) : option Z :=
  let n := nat_of_ascii c in
  if decide (48 ≤ n ≤ 57)%nat then Some (Z.of_nat n - 48) else None.

(** The value of the longest prefix of decimal digits, [acc] being the
    value of the digits already read and [seen] whether there were any. *)
Fixpoint digits_prefix (seen : bool) (acc : Z) (s : string) : number :=
  match s with
  | String a s' =>
      match digit a with
      | Some d => digits_prefix true (10 * acc + d) s'
      | None => if seen then Some acc else NaN
      end
  | "" => if seen then Some acc else NaN
  end.

(** [parseInt(s, 10)]: leading white space is skipped, one sign is read,
    then the longest prefix of decimal digits; [NaN] without a digit.
    An absent argument ([undefined]) reads as the text "undefined". *)
Definition parseInt (arg : option string) : number :=
  match arg with
  | None => NaN
  | Some s =>
      match trimStart s with
      | String "-" s' => Z.opp <$> digits_prefix false 0 s'
      | String "+" s' => digits_prefix false 0 s'
      | s' => digits_prefix false 0 s'
      end
  end.

(** [a.localeCompare(b)]: -1, 0 or 1, by the order of the bytes.  This is
    the collation order of the locale on the zero-padded times "HH:MM" that
    the time fields deliver; on other texts a locale may order differently,
    and the properties about the order of sessions are stated for stores
    whose start times are such times. *)
Definition localeCompare (a b : string) : Z :=
  match String.compare a b with
  | Lt => -1
  | Eq => 0
  | Gt => 1
  end.

(** [l.indexOf(x)]: the first position of [x], or -1. *)
Fixpoint indexOf `{EqDecision A} (x : A) (l : list A) : Z :=
  match l with
  | [] => -1
  | y :: l' =>
      if decide (y = x) then 0
      else let i := indexOf x l' in if decide (i = -1) then -1 else i + 1
  end.

(** [l[i]]: [None] is [undefined]. *)
Definition at_ {A} (l : list A) (i : Z) : option A :=
  if decide (0 ≤ i) then l !! Z.to_nat i else None.

(** [l.find(p)]. *)
Definition find {A} (P : A → Prop) `{∀ x, Decision (P x)} (l : list A) : option A :=
  snd <$> list_find P l.

(** [l.sort(cmp)]: the sort is stable, and [cmp a b ≤ 0] keeps [a]
    before [b].  Insertion from the right end realises it. *)
Fixpoint insert_sorted {A} (cmp : A → A → Z) (x : A) (l : list A) : list A :=
  match l with
  | [] => [x]
  | y :: l' =>
      if decide (cmp x y ≤ 0) then x :: y :: l' else y :: insert_sorted cmp x l'
  end.

Definition sort {A} (cmp : A → A → Z) (l : list A) : list A :=
  foldr (insert_sorted cmp) [] l.

End JS.

(** ** Data model *)

Inductive DayKey :=
  Monday | Tuesday | Wednesday | Thursday | Friday | Saturday | Sunday.

Global Instance DayKey_eq_dec : EqDecision DayKey.
Proof. solve_decision. Defined.

Definition dayKeys : list DayKey :=
  [Monday; Tuesday; Wednesday; Thursday; Friday; Saturday; Sunday].

Definition DayKey_code (d : DayKey) : nat :=
  match d with
  | Monday => 0 | Tuesday => 1 | Wednesday => 2 | Thursday => 3
  | Friday => 4 | Saturday => 5 | Sunday => 6
  end.

Global Instance DayKey_countable : Countable DayKey.
Proof.
  apply (inj_countable' DayKey_code (λ n, default Monday (dayKeys !! n))).
  by intros [].
Defined.

Inductive Intensity := Light | Moderate | Intense.

Global Instance Intensity_eq_dec : EqDecision Intensity.
Proof. solve_decision. Defined.

Record ExercisePlan := {
  e_id : string;
  e_name : string;
  e_focus : string;
  e_sets : Z;
  e_reps : string;
  e_notes : string
}.

Global Instance ExercisePlan_eq_dec : EqDecision ExercisePlan.
Proof. solve_decision. Defined.

Record SessionPlan := {
  s_id : string;
  s_day : DayKey;
  s_start : string;
  s_end : string;
  s_focus : string;
  s_intensity : Intensity;
  s_location : string;
  s_target : string;
  s_notes : string;
  s_exercises : list ExercisePlan
}.

Global Instance SessionPlan_eq_dec : EqDecision SessionPlan.
Proof. solve_decision. Defined.

(** [Omit<SessionPlan, 'id' | 'exercises'>], the type of the session form. *)
Record SessionForm := {
  f_day : DayKey;
  f_start : string;
  f_end : string;
  f_focus : string;
  f_intensity : Intensity;
  f_location : string;
  f_target : string;
  f_notes : string
}.

Record Template := {
  t_label : string;
  t_focus : string;
  t_intensity : Intensity;
  t_location : string;
  t_target : string;
  t_notes : string;
  t_exercises : list ExercisePlan
}.

(** ** Identifiers

    [uuid()] is a supply of fresh identifiers: its [n]-th call returns
    [uuid_of n], and no two calls return the same text. *)

Definition uuid_of (n : nat) : string := "uuid-" +:+ pretty n.

(** [{ ...exercise, id }] *)
Definition with_id (exercise : ExercisePlan) (id : string) : ExercisePlan :=
  {| e_id := id; e_name := e_name exercise; e_focus := e_focus exercise;
     e_sets := e_sets exercise; e_reps := e_reps exercise;
     e_notes := e_notes exercise |}.

(** ** Module-level constants; their identifiers are the first ten drawn. *)

Definition defaultExercises : list ExercisePlan :=
  [ {| e_id := uuid_of 0; e_name := "Barbell Back Squat"; e_focus := "Compound";
       e_sets := 4; e_reps := "6-8"; e_notes := "Tempo 3-1-1, rest 120s" |};
    {| e_id := uuid_of 1; e_name := "Romanian Deadlift"; e_focus := "Posterior Chain";
       e_sets := 3; e_reps := "8-10"; e_notes := "Use straps if grip fatigues" |} ].

Definition templates : list Template :=
  [ {| t_label := "Push Power 60m"; t_focus := "Upper Body Push";
       t_intensity := Intense; t_location := "Strength Zone";
       t_target := "Chest/Shoulders/Triceps";
       t_notes := "Prioritize heavy compounds, finish with sled pushes.";
       t_exercises :=
         [ {| e_id := uuid_of 2; e_name := "Flat Bench Press"; e_focus := "Compound";
              e_sets := 5; e_reps := "5"; e_notes := "Add 2.5kg each microcycle" |};
           {| e_id := uuid_of 3; e_name := "Seated DB Shoulder Press";
              e_focus := "Accessory"; e_sets := 3; e_reps := "8-10"; e_notes := "" |};
           {| e_id := uuid_of 4; e_name := "Weighted Dips"; e_focus := "Accessory";
              e_sets := 3; e_reps := "AMRAP"; e_notes := "RPE 8" |} ] |};
    {| t_label := "Conditioning 40m"; t_focus := "Engine Builder";
       t_intensity := Moderate; t_location := "Turf + Assault Bike";
       t_target := "Cardio / Core";
       t_notes := "Sustainable heart rate 150-160, nasal breathing focus.";
       t_exercises :=
         [ {| e_id := uuid_of 5; e_name := "Assault Bike Intervals"; e_focus := "Cardio";
              e_sets := 8; e_reps := "60s on / 60s off"; e_notes := "" |};
           {| e_id := uuid_of 6; e_name := "Farmer Carry"; e_focus := "Core / Grip";
              e_sets := 4; e_reps := "40m"; e_notes := "Heavy kettlebells" |} ] |};
    {| t_label := "Mobility Reset 30m"; t_focus := "Recovery";
       t_intensity := Light; t_location := "Studio";
       t_target := "Mobility / Breathwork";
       t_notes := "Full-body flow to enhance recovery and joint health.";
       t_exercises :=
         [ {| e_id := uuid_of 7; e_name := "90/90 Hip Flow"; e_focus := "Mobility";
              e_sets := 3; e_reps := "3 min per side"; e_notes := "" |};
           {| e_id := uuid_of 8; e_name := "Thoracic Opener"; e_focus := "Mobility";
              e_sets := 3; e_reps := "12 reps"; e_notes := "Foam roller" |};
           {| e_id := uuid_of 9; e_name := "Box Breathing"; e_focus := "Breathwork";
              e_sets := 1; e_reps := "6 min"; e_notes := "4-4-4-4 cadence" |} ] |} ].

Definition initialSessionForm : SessionForm :=
  {| f_day := Monday; f_start := "07:00"; f_end := "08:15";
     f_focus := "Lower Body Strength"; f_intensity := Intense;
     f_location := "Rack Bay"; f_target := "Quads/Glutes/Core"; f_notes := "" |}.

(** [{ id, ...form, exercises }] *)
Definition session_of_form (id : string) (form : SessionForm)
    (exercises : list ExercisePlan) : SessionPlan :=
  {| s_id := id; s_day := f_day form; s_start := f_start form; s_end := f_end form;
     s_focus := f_focus form; s_intensity := f_intensity form;
     s_location := f_location form; s_target := f_target form;
     s_notes := f_notes form; s_exercises := exercises |}.

(** ** The state of the component and the monad of its handlers *)

Record State := {
  sessions : list SessionPlan;
  sessionForm : SessionForm;
  exerciseDrafts : list ExercisePlan;
  (** the number of identifiers drawn so far *)
  supply : nat
}.

Definition M (A : Type) : Type := State → A * State.

Global Instance M_ret : MRet M := λ A x st, (x, st).
Global Instance M_bind : MBind M := λ A B f c st, let '(x, st') := c st in f x st'.

Definition gets {A} (f : State → A) : M A := λ st, (f st, st).

Definition exec {A} (c : M A) (st : State) : State := (c st).2.

Definition uuid : M string := λ st,
  (uuid_of (supply st),
   {| sessions := sessions st; sessionForm := sessionForm st;
      exerciseDrafts := exerciseDrafts st; supply := S (supply st) |}).

Definition setSessions (f : list SessionPlan → list SessionPlan) : M () := λ st,
  ((), {| sessions := f (sessions st); sessionForm := sessionForm st;
          exerciseDrafts := exerciseDrafts st; supply := supply st |}).

Definition setSessionForm (f : SessionForm → SessionForm) : M () := λ st,
  ((), {| sessions := sessions st; sessionForm := f (sessionForm st);
          exerciseDrafts := exerciseDrafts st; supply := supply st |}).

Definition setExerciseDrafts (f : list ExercisePlan → list ExercisePlan) : M () := λ st,
  ((), {| sessions := sessions st; sessionForm := sessionForm st;
          exerciseDrafts := f (exerciseDrafts st); supply := supply st |}).

(** [(exercise) => ({ ...exercise, id: uuid() })] *)
Definition fresh_copy (exercise : ExercisePlan) : M ExercisePlan :=
  id ← uuid; mret (with_id exercise id).

(** The state on the first render: one seeded session and one blank draft. *)
Definition initial_state : State :=
  {| sessions := [session_of_form (uuid_of 10) initialSessionForm defaultExercises];
     sessionForm := initialSessionForm;
     exerciseDrafts :=
       [ {| e_id := uuid_of 11; e_name := ""; e_focus := ""; e_sets := 3;
            e_reps := "8-12"; e_notes := "" |} ];
     supply := 12 |}.

(** ** Derived views *)

(** [grouped]: the object filled, day by day, by the [reduce] over [dayKeys]. *)
Definition grouped (sessions : list SessionPlan) : gmap DayKey (list SessionPlan) :=
  foldl
    (λ acc day,
       <[day := JS.sort (λ a b, JS.localeCompare (s_start a) (s_start b))
                  (filter (λ session, s_day session = day) sessions)]> acc)
    ∅ dayKeys.

(** The comparator of [nextSessionId]. *)
Definition compareSessions (a b : SessionPlan) : Z :=
  let dayIndex := JS.indexOf (s_day a) dayKeys - JS.indexOf (s_day b) dayKeys in
  if decide (dayIndex ≠ 0) then dayIndex
  else JS.localeCompare (s_start a) (s_start b).

Definition nextSessionId (sessions : list SessionPlan) : option string :=
  if decide (length sessions = 0%nat) then None
  else
    let upcoming := JS.sort compareSessions sessions in
    s_id <$> JS.at_ upcoming 0.

(** ** Handlers *)

(** A key of the session form with a value of its type. *)
Inductive SessionField :=
  | SetDay (v : DayKey)
  | SetStart (v : string)
  | SetEnd (v : string)
  | SetFocus (v : string)
  | SetIntensity (v : Intensity)
  | SetLocation (v : string)
  | SetTarget (v : string)
  | SetNotes (v : string).

(** [{ ...prev, [key]: value }] on the session form. *)
Definition update_form (kv : SessionField) (prev : SessionForm) : SessionForm :=
  match kv with
  | SetDay v =>
      {| f_day := v; f_start := f_start prev; f_end := f_end prev;
         f_focus := f_focus prev; f_intensity := f_intensity prev;
         f_location := f_location prev; f_target := f_target prev;
         f_notes := f_notes prev |}
  | SetStart v =>
      {| f_day := f_day prev; f_start := v; f_end := f_end prev;
         f_focus := f_focus prev; f_intensity := f_intensity prev;
         f_location := f_location prev; f_target := f_target prev;
         f_notes := f_notes prev |}
  | SetEnd v =>
      {| f_day := f_day prev; f_start := f_start prev; f_end := v;
         f_focus := f_focus prev; f_intensity := f_intensity prev;
         f_location := f_location prev; f_target := f_target prev;
         f_notes := f_notes prev |}
  | SetFocus v =>
      {| f_day := f_day prev; f_start := f_start prev; f_end := f_end prev;
         f_focus := v; f_intensity := f_intensity prev;
         f_location := f_location prev; f_target := f_target prev;
         f_notes := f_notes prev |}
  | SetIntensity v =>
      {| f_day := f_day prev; f_start := f_start prev; f_end := f_end prev;
         f_focus := f_focus prev; f_intensity := v;
         f_location := f_location prev; f_target := f_target prev;
         f_notes := f_notes prev |}
  | SetLocation v =>
      {| f_day := f_day prev; f_start := f_start prev; f_end := f_end prev;
         f_focus := f_focus prev; f_intensity := f_intensity prev;
         f_location := v; f_target := f_target prev; f_notes := f_notes prev |}
  | SetTarget v =>
      {| f_day := f_day prev; f_start := f_start prev; f_end := f_end prev;
         f_focus := f_focus prev; f_intensity := f_intensity prev;
         f_location := f_location prev; f_target := v; f_notes := f_notes prev |}
  | SetNotes v =>
      {| f_day := f_day prev; f_start := f_start prev; f_end := f_end prev;
         f_focus := f_focus prev; f_intensity := f_intensity prev;
         f_location := f_location prev; f_target := f_target prev; f_notes := v |}
  end.

Definition handleSessionChange (kv : SessionField) : M () :=
  setSessionForm (update_form kv).

(** A key of an exercise draft with a value of its type, as the five
    inputs of a draft row pass them. *)
Inductive ExerciseField :=
  | SetExName (v : string)
  | SetExFocus (v : string)
  | SetExSets (v : Z)
  | SetExReps (v : string)
  | SetExNotes (v : string).

(** [{ ...exercise, [key]: value }] *)
Definition update_exercise (kv : ExerciseField) (exercise : ExercisePlan) : ExercisePlan :=
  match kv with
  | SetExName v =>
      {| e_id := e_id exercise; e_name := v; e_focus := e_focus exercise;
         e_sets := e_sets exercise; e_reps := e_reps exercise;
         e_notes := e_notes exercise |}
  | SetExFocus v =>
      {| e_id := e_id exercise; e_name := e_name exercise; e_focus := v;
         e_sets := e_sets exercise; e_reps := e_reps exercise;
         e_notes := e_notes exercise |}
  | SetExSets v =>
      {| e_id := e_id exercise; e_name := e_name exercise;
         e_focus := e_focus exercise; e_sets := v; e_reps := e_reps exercise;
         e_notes := e_notes exercise |}
  | SetExReps v =>
      {| e_id := e_id exercise; e_name := e_name exercise;
         e_focus := e_focus exercise; e_sets := e_sets exercise; e_reps := v;
         e_notes := e_notes exercise |}
  | SetExNotes v =>
      {| e_id := e_id exercise; e_name := e_name exercise;
         e_focus := e_focus exercise; e_sets := e_sets exercise;
         e_reps := e_reps exercise; e_notes := v |}
  end.

Definition handleExerciseChange (id : string) (kv : ExerciseField) : M () :=
  setExerciseDrafts (λ prev,
    (λ exercise, if decide (e_id exercise = id) then update_exercise kv exercise
                 else exercise) <$> prev).

(** The value that the sets input passes on: [Number(text) || 0], for the
    number [parsed] that [Number] reads from the text of the field. *)
Definition sets_of_input (parsed : JS.number) : Z :=
  match parsed with
  | Some n => if decide (n = 0) then 0 else n
  | None => 0
  end.

Definition blank_draft (id reps : string) : ExercisePlan :=
  {| e_id := id; e_name := ""; e_focus := ""; e_sets := 3; e_reps := reps;
     e_notes := "" |}.

Definition addExerciseDraft : M () :=
  id ← uuid;
  setExerciseDrafts (λ prev, prev ++ [blank_draft id "10"]).

Definition removeExerciseDraft (id : string) : M () :=
  setExerciseDrafts (λ prev,
    if decide (length prev = 1%nat) then prev
    else filter (λ exercise, e_id exercise ≠ id) prev).

Definition fallback (id : string) : ExercisePlan :=
  {| e_id := id; e_name := "Full-Body Circuit"; e_focus := "Conditioning";
     e_sets := 5; e_reps := "45s on / 15s off";
     e_notes := "Use sled, battle ropes, and med-ball slams" |}.

(** The identifiers are drawn in the order in which the calls of [uuid]
    are written; the button of the form calls [addSession()], without
    [customExercises]. *)
Definition addSession (customExercises : option (list ExercisePlan)) : M () :=
  exerciseDrafts ← gets exerciseDrafts;
  sessionForm ← gets sessionForm;
  exercises ←
    mapM fresh_copy
      (filter (λ exercise, (0 < String.length (JS.trim (e_name exercise)))%nat)
         (default exerciseDrafts customExercises));
  exercises ←
    (if decide (length exercises = 0%nat)
     then id ← uuid; mret (exercises ++ [fallback id])
     else mret exercises);
  id ← uuid;
  setSessions (λ prev, prev ++ [session_of_form id sessionForm exercises]);;
  id ← uuid;
  setExerciseDrafts (λ _, [blank_draft id "8-12"]).

(** [None]: the index is outside the catalogue, and reading [template.focus]
    throws. *)
Definition applyTemplateToDay (day : DayKey) (templateIndex : Z) (st : State)
    : option State :=
  template ← JS.at_ templates templateIndex;
  Some (exec
    (id ← uuid;
     exercises ← mapM fresh_copy (t_exercises template);
     setSessions (λ prev, prev ++
       [ {| s_id := id; s_day := day; s_start := "18:00"; s_end := "19:00";
            s_focus := t_focus template; s_intensity := t_intensity template;
            s_location := t_location template; s_target := t_target template;
            s_notes := t_notes template; s_exercises := exercises |} ])) st).

Definition clearDay (day : DayKey) : M () :=
  setSessions (λ prev, filter (λ session, s_day session ≠ day) prev).

Inductive Direction := Next | Previous.

Definition offsetMinutes (direction : Direction) : Z :=
  match direction with Next => 60 | Previous => -60 end.

(** [adjustTime], the closure of [duplicateSession], over its offset. *)
Definition adjustTime (offsetMinutes : Z) (time : string) : string :=
  let parts := JS.split ":" time in
  let hourStr := parts !! 0%nat in
  let minuteStr := parts !! 1%nat in
  let minuteValue :=
    h ← JS.parseInt hourStr; m ← JS.parseInt minuteStr;
    Some (h * 60 + m + offsetMinutes) in
  let normalized :=
    JS.rem ((λ r, r + 24 * 60) <$> JS.rem minuteValue (Some (24 * 60)))
      (Some (24 * 60)) in
  let hours := JS.padStart 2 "0" (JS.toString (JS.floor_div normalized (Some 60))) in
  let minutes := JS.padStart 2 "0" (JS.toString (JS.rem normalized (Some 60))) in
  hours +:+ ":" +:+ minutes.

(** The day that [duplicateSession] moves the copy to. *)
Definition nextIndex (direction : Direction) (currentDayIndex : Z) : Z :=
  match direction with
  | Next => Z.rem (currentDayIndex + 1) (Z.of_nat (length dayKeys))
  | Previous =>
      Z.rem (currentDayIndex - 1 + Z.of_nat (length dayKeys))
        (Z.of_nat (length dayKeys))
  end.

(** [today] is the text of [format(new Date(), 'MMM d')].  The branch on
    an index outside [dayKeys] is never taken ([nextIndex_in_range]). *)
Definition duplicateSession (sessionId : string) (direction : Direction)
    (today : string) : M () :=
  prev ← gets sessions;
  match JS.find (λ session, s_id session = sessionId) prev with
  | None => mret ()
  | Some target =>
      let currentDayIndex := JS.indexOf (s_day target) dayKeys in
      match JS.at_ dayKeys (nextIndex direction currentDayIndex) with
      | None => mret ()
      | Some newDay =>
          id ← uuid;
          exercises ← mapM fresh_copy (s_exercises target);
          setSessions (λ prev, prev ++
            [ {| s_id := id; s_day := newDay;
                 s_start := adjustTime (offsetMinutes direction) (s_start target);
                 s_end := adjustTime (offsetMinutes direction) (s_end target);
                 s_focus := s_focus target; s_intensity := s_intensity target;
                 s_location := s_location target; s_target := s_target target;
                 s_notes :=
                   s_notes target +:+ " • Duplicated "
                   +:+ match direction with
                       | Next => "forward"
                       | Previous => "backward"
                       end
                   +:+ " on " +:+ today;
                 s_exercises := exercises |} ])
      end
  end.

Definition removeSession (sessionId : string) : M () :=
  setSessions (λ prev, filter (λ session, s_id session ≠ sessionId) prev).

(** ** User actions

    What the rendered page lets the user trigger, each with the handler
    that its control calls. *)

(** The five inputs of a draft row.  The sets input is a number field: it
    hands over the number [parsed] that [Number] reads from its text. *)
Inductive DraftInput :=
  | NameInput (text : string)
  | FocusInput (text : string)
  | SetsInput (parsed : JS.number)
  | RepsInput (text : string)
  | NotesInput (text : string).

Definition field_of_input (input : DraftInput) : ExerciseField :=
  match input with
  | NameInput text => SetExName text
  | FocusInput text => SetExFocus text
  | SetsInput parsed => SetExSets (sets_of_input parsed)
  | RepsInput text => SetExReps text
  | NotesInput text => SetExNotes text
  end.

Inductive Event :=
  | SessionInput (kv : SessionField)
  | ExerciseInput (id : string) (input : DraftInput)
  | AddExerciseClick
  | RemoveExerciseClick (id : string)
  | AddSessionClick
  | TemplateClick (day : DayKey) (templateIndex : Z)
  | ClearDayClick (day : DayKey)
  | DuplicateClick (sessionId : string) (direction : Direction) (today : string)
  | RemoveSessionClick (sessionId : string).

Definition step (ev : Event) (st : State) : option State :=
  match ev with
  | SessionInput kv => Some (exec (handleSessionChange kv) st)
  | ExerciseInput id input =>
      Some (exec (handleExerciseChange id (field_of_input input)) st)
  | AddExerciseClick => Some (exec addExerciseDraft st)
  | RemoveExerciseClick id => Some (exec (removeExerciseDraft id) st)
  | AddSessionClick => Some (exec (addSession None) st)
  | TemplateClick day templateIndex => applyTemplateToDay day templateIndex st
  | ClearDayClick day => Some (exec (clearDay day) st)
  | DuplicateClick sessionId direction today =>
      Some (exec (duplicateSession sessionId direction today) st)
  | RemoveSessionClick sessionId => Some (exec (removeSession sessionId) st)
  end.

(** The state after a sequence of actions, from the left. *)
Fixpoint run (evs : list Event) (st : State) : option State :=
  match evs with
  | [] => Some st
  | ev :: evs' => st' ← step ev st; run evs' st'
  end.

Definition reachable (st : State) : Prop :=
  ∃ evs, run evs initial_state = Some st.

(** ** Vocabulary of the properties *)

(** The character of a decimal digit. *)
Definition digit_char (d : Z) : ascii := ascii_of_nat (48 + Z.to_nat d).

(** A number below 100 written with two digits. *)
Definition two_digits (n : Z) : string :=
  String (digit_char (n `div` 10)) (String (digit_char (n `mod` 10)) "").

(** The zero-padded text "HH:MM" of [h] hours and [m] minutes. *)
Definition time_text (h m : Z) : string :=
  two_digits h +:+ ":" +:+ two_digits m.

(** A valid zero-padded time of day. *)
Definition valid_time (s : string) : Prop :=
  ∃ h m, 0 ≤ h < 24 ∧ 0 ≤ m < 60 ∧ s = time_text h m.

(** Minutes since midnight after a shift, normalised as the component does
    it, with the remainder that takes the sign of the dividend. *)
Definition shifted (h m offset : Z) : Z :=
  Z.rem (Z.rem (h * 60 + m + offset) 1440 + 1440) 1440.

(** The white-space characters and line terminators of the language, each
    by the bytes of its UTF-8 encoding: U+0009 to U+000D, U+0020, U+00A0,
    U+1680, U+2000 to U+200A, U+2028, U+2029, U+202F, U+205F, U+3000 and
    U+FEFF. *)
Definition white_space_characters : list string :=
  [ String "009" ""; String "010" ""; String "011" ""; String "012" "";
    String "013" ""; String "032" "";
    String "194" (String "160" "");
    String "225" (String "154" (String "128" ""));
    String "226" (String "128" (String "128" ""));
    String "226" (String "128" (String "129" ""));
    String "226" (String "128" (String "130" ""));
    String "226" (String "128" (String "131" ""));
    String "226" (String "128" (String "132" ""));
    String "226" (String "128" (String "133" ""));
    String "226" (String "128" (String "134" ""));
    String "226" (String "128" (String "135" ""));
    String "226" (String "128" (String "136" ""));
    String "226" (String "128" (String "137" ""));
    String "226" (String "128" (String "138" ""));
    String "226" (String "128" (String "168" ""));
    String "226" (String "128" (String "169" ""));
    String "226" (String "128" (String "175" ""));
    String "226" (String "129" (String "159" ""));
    String "227" (String "128" (String "128" ""));
    String "239" (String "187" (String "191" "")) ].

(** [s] without the prefix [p]. *)
Fixpoint without_prefix (p s : string) : option string :=
  match p with
  | "" => Some s
  | String a p' =>
      match s with
      | String b s' => if decide (a = b) then without_prefix p' s' else None
      | "" => None
      end
  end.

(** [s] without its first character, when that is a white-space character. *)
Definition without_white (s : string) : option string :=
  head (omap (λ w, without_prefix w s) white_space_characters).

(** A text of at most [n] white-space characters. *)
Fixpoint blank_within (n : nat) (s : string) : Prop :=
  match n with
  | O => s = ""
  | S n' =>
      s = "" ∨ match without_white s with
               | Some r => blank_within n' r
               | None => False
               end
  end.

(** A name that is empty or made of white-space characters only. *)
Definition blank (s : string) : Prop := blank_within (String.length s) s.

(** The position of a day in the week that starts on Monday. *)
Definition day_index (d : DayKey) : Z :=
  match d with
  | Monday => 0 | Tuesday => 1 | Wednesday => 2 | Thursday => 3
  | Friday => 4 | Saturday => 5 | Sunday => 6
  end.

(** Lexicographic order of two texts, character by character. *)
Fixpoint lex_le (a b : string) : Prop :=
  match a, b with
  | "", _ => True
  | String _ _, "" => False
  | String x a', String y b' =>
      (nat_of_ascii x < nat_of_ascii y)%nat ∨ (x = y ∧ lex_le a' b')
  end.

(** Sessions of one day by start time. *)
Definition start_le (a b : SessionPlan) : Prop := lex_le (s_start a) (s_start b).

(** Sessions by day of the week, then by start time. *)
Definition session_le (a b : SessionPlan) : Prop :=
  day_index (s_day a) < day_index (s_day b)
  ∨ (day_index (s_day a) = day_index (s_day b) ∧ start_le a b).

Global Instance lex_le_dec (a b : string) : Decision (lex_le a b).
Proof. revert b. induction a as [|x a IH]; intros [|y b]; simpl; apply _. Defined.

Global Instance start_le_dec (a b : SessionPlan) : Decision (start_le a b).
Proof. unfold start_le. apply _. Defined.

Global Instance session_le_dec (a b : SessionPlan) : Decision (session_le a b).
Proof. unfold session_le. apply _. Defined.

(** One step through the week, forward and backward. *)
Definition next_day (d : DayKey) : DayKey :=
  match d with
  | Monday => Tuesday | Tuesday => Wednesday | Wednesday => Thursday
  | Thursday => Friday | Friday => Saturday | Saturday => Sunday
  | Sunday => Monday
  end.

Definition previous_day (d : DayKey) : DayKey :=
  match d with
  | Monday => Sunday | Tuesday => Monday | Wednesday => Tuesday
  | Thursday => Wednesday | Friday => Thursday | Saturday => Friday
  | Sunday => Saturday
  end.

Definition adjacent_day (direction : Direction) (d : DayKey) : DayKey :=
  match direction with
  | Next => next_day d
  | Previous => previous_day d
  end.

(** The actions that create a session. *)
Definition creates_session (ev : Event) : Prop :=
  match ev with
  | AddSessionClick | TemplateClick _ _ | DuplicateClick _ _ _ => True
  | _ => False
  end.

(** Every session has an exercise. *)
Definition sessions_nonempty (sessions : list SessionPlan) : Prop :=
  Forall (λ session, s_exercises session ≠ []) sessions.

(** The identifiers of the sessions of a store. *)
Definition session_ids (sessions : list SessionPlan) : list string :=
  s_id <$> sessions.

(** The state after [k] more identifiers were drawn. *)
Definition drawn (k : nat) (st : State) : State :=
  {| sessions := sessions st; sessionForm := sessionForm st;
     exerciseDrafts := exerciseDrafts st; supply := (supply st + k)%nat |}.

(** The copies that [fresh_copy] makes of a list from supply [n] on. *)
Definition fresh_copies (n : nat) (l : list ExercisePlan) : list ExercisePlan :=
  imap (λ i exercise, with_id exercise (uuid_of (n + i))) l.

(** The copy that a duplication makes of [target], on the adjacent day. *)
Definition copy_of (target : SessionPlan) (direction : Direction) (today : string)
    (n : nat) : SessionPlan :=
  {| s_id := uuid_of n; s_day := adjacent_day direction (s_day target);
     s_start := adjustTime (offsetMinutes direction) (s_start target);
     s_end := adjustTime (offsetMinutes direction) (s_end target);
     s_focus := s_focus target; s_intensity := s_intensity target;
     s_location := s_location target; s_target := s_target target;
     s_notes :=
       s_notes target +:+ " • Duplicated "
       +:+ match direction with Next => "forward" | Previous => "backward" end
       +:+ " on " +:+ today;
     s_exercises := fresh_copies (S n) (s_exercises target) |}.

(** The session that a template becomes on [day]. *)
Definition session_of_template (template : Template) (day : DayKey) (n : nat)
    : SessionPlan :=
  {| s_id := uuid_of n; s_day := day; s_start := "18:00"; s_end := "19:00";
     s_focus := t_focus template; s_intensity := t_intensity template;
     s_location := t_location template; s_target := t_target template;
     s_notes := t_notes template;
     s_exercises := fresh_copies (S n) (t_exercises template) |}.

(** The identifiers of the store are distinct and were drawn from the
    supply. *)
Definition ids_fresh (st : State) : Prop :=
  NoDup (session_ids (sessions st))
  ∧ Forall (λ session, ∃ k, (k < supply st)%nat ∧ s_id session = uuid_of k)
      (sessions st).

(** ** Further derived views and what the page shows of them *)

(** A value of the focus summary: a count, or a text.  The summary is a
    plain object, so a label that names a property that plain objects
    inherit reads that property where it has no entry yet, and adding 1 to
    it gives a text, as adding 1 to a text does. *)
Inductive Tally := Count (n : Z) | Text.

(** The properties that a plain object inherits. *)
Definition inherited_names : list string :=
  [ "constructor"; "__defineGetter__"; "__defineSetter__"; "hasOwnProperty";
    "__lookupGetter__"; "__lookupSetter__"; "isPrototypeOf";
    "propertyIsEnumerable"; "toString"; "valueOf"; "__proto__";
    "toLocaleString" ].

(** [(acc[key] ?? 0) + 1] *)
Definition tally_next (acc : gmap string Tally) (key : string) : Tally :=
  match acc !! key with
  | Some (Count n) => Count (n + 1)
  | Some Text => Text
  | None => if decide (key ∈ inherited_names) then Text else Count (0 + 1)
  end.

(** [focusSummary]; the assignment to the key "__proto__" stores nothing. *)
Definition focusSummary (sessions : list SessionPlan) : gmap string Tally :=
  foldl
    (λ acc session,
       if decide (s_focus session = "__proto__") then acc
       else <[s_focus session := tally_next acc (s_focus session)]> acc)
    ∅ sessions.

Definition intensityScore (intensity : Intensity) : Z :=
  match intensity with
  | Intense => 3
  | Moderate => 2
  | Light => 1
  end.

(** [score], the load of the sessions of one day. *)
Definition score (daySessions : list SessionPlan) : Z :=
  foldl (λ acc session, acc + intensityScore (s_intensity session)) 0 daySessions.

Inductive Rating := Recovery | Load | Build.

Definition rating (score : Z) : Rating :=
  if decide (score = 0) then Recovery
  else if decide (4 ≤ score) then Load else Build.

(** The rating shown for [day] in the overview; [None]: [grouped[day]] is
    undefined and reading its [reduce] throws. *)
Definition dayRating (sessions : list SessionPlan) (day : DayKey) : option Rating :=
  daySessions ← grouped sessions !! day;
  Some (rating (score daySessions)).

(** [session.id === nextSessionId], the condition of the ring around a
    session card. *)
Definition highlighted (sessions : list SessionPlan) (session : SessionPlan) : bool :=
  bool_decide (nextSessionId sessions = Some (s_id session)).

(** The text after "Next highlight session:"; [None] is [undefined].  An
    empty identifier is falsy, as null is. *)
Definition nextHighlight (sessions : list SessionPlan) : option string :=
  match nextSessionId sessions with
  | Some id =>
      if decide (id = "") then Some "No sessions yet"
      else s_focus <$> JS.find (λ session, s_id session = id) sessions
  | None => Some "No sessions yet"
  end.

(** The handler of the day selector of a template card; [None] for
    [value] is the placeholder option. *)
Definition templateSelect (value : option DayKey) (index : Z) (st : State)
    : option State :=
  match value with
  | None => Some st
  | Some day => applyTemplateToDay day index st
  end.

(** ** Further vocabulary *)

(** A text without a colon. *)
Fixpoint no_colon (s : string) : Prop :=
  match s with
  | "" => True
  | String a s' => a ≠ ":"%char ∧ no_colon s'
  end.

(** What an exercise prescribes, its identifier apart. *)
Definition prescription (exercise : ExercisePlan) : string * string * Z * string * string :=
  (e_name exercise, e_focus exercise, e_sets exercise, e_reps exercise,
   e_notes exercise).

(** The drafts have distinct identifiers, drawn from the supply. *)
Definition drafts_fresh (st : State) : Prop :=
  NoDup (e_id <$> exerciseDrafts st)
  ∧ Forall (λ exercise, ∃ k, (k < supply st)%nat ∧ e_id exercise = uuid_of k)
      (exerciseDrafts st).

(** The number of sessions with a focus label. *)
Definition focus_count (label : string) (sessions : list SessionPlan) : Z :=
  Z.of_nat (length (filter (λ session, s_focus session = label) sessions)).

(** [session] is the first of the least sessions of [before ++ session ::
    after]: no session precedes it strictly, and none of the sessions
    before it is as early. *)
Definition first_least (before : list SessionPlan) (session : SessionPlan)
    (after : list SessionPlan) : Prop :=
  Forall (λ other, ¬ session_le other session) before
  ∧ Forall (session_le session) after.

Global Instance blank_within_dec (n : nat) (s : string) : Decision (blank_within n s).
Proof.
  revert s. induction n as [|n IH]; intros s; simpl; [apply _|].
  destruct (without_white s); apply _.
Defined.

Global Instance blank_dec (s : string) : Decision (blank s).
Proof. unfold blank. apply _. Defined.

(** In each session the exercises have distinct identifiers. *)
Definition exercise_ids_distinct (store : list SessionPlan) : Prop :=
  Forall (λ session, NoDup (e_id <$> s_exercises session)) store.

(** The other direction. *)
Definition opposite (direction : Direction) : Direction :=
  match direction with
  | Next => Previous
  | Previous => Next
  end.

(** The start times of a store are valid zero-padded times, as the time
    field of the form delivers them. *)
Definition starts_valid (store : list SessionPlan) : Prop :=
  Forall (λ session, valid_time (s_start session)) store.

(** A session for the examples. *)
Definition example_session (id : string) (day : DayKey) (start : string)
    : SessionPlan :=
  session_of_form id
    (update_form (SetDay day) (update_form (SetStart start) initialSessionForm))
    defaultExercises.

(** A store for the examples, not in the order of the week. *)
Definition example_store : list SessionPlan :=
  [ example_session "t" Tuesday "06:00"; example_session "m1" Monday "18:00";
    example_session "m2" Monday "07:00"; example_session "m3" Monday "07:00" ].

(** [min={1}] and [max={12}], the range that the sets input declares. *)
Definition sets_min : Z := 1.
Definition sets_max : Z := 12.

(** A state for the examples: two draft rows, the first with an
    ideographic space for its name, the second named "Plank". *)
Definition example_events : list Event :=
  [ AddExerciseClick;
    ExerciseInput (uuid_of 11)
      (NameInput (String "227" (String "128" (String "128" ""))));
    ExerciseInput (uuid_of 12) (NameInput "Plank") ].

Definition example_state : State :=
  default initial_state (run example_events initial_state).

(** The identifiers that a state holds: those of its sessions, of the
    exercises of its sessions and of its draft rows, and with them those
    of the default exercises and of the exercises of the templates. *)
Definition ids_in_use (st : State) : list string :=
  session_ids (sessions st)
  ++ (e_id <$> concat (s_exercises <$> sessions st))
  ++ (e_id <$> exerciseDrafts st)
  ++ (e_id <$> defaultExercises)
  ++ (e_id <$> concat (t_exercises <$> templates)).

Definition in_use (st : State) (id : string) : Prop := id ∈ ids_in_use st.

(** An identifier that was among the first [n] drawn. *)
Definition drawn_before (n : nat) (id : string) : Prop :=
  ∃ k, (k < n)%nat ∧ id = uuid_of k.

(** The identifiers of the exercises of the store were drawn from the
    supply, after the twelve of the first render. *)
Definition exercises_drawn (st : State) : Prop :=
  Forall (λ session,
            Forall (λ exercise, drawn_before (supply st) (e_id exercise))
              (s_exercises session))
    (sessions st)
  ∧ (12 ≤ supply st)%nat.

(** A zero-padded time "HH:MM" moved by one hour, forward for the next
    day and backward for the previous one, around midnight. *)
Definition one_hour (direction : Direction) (time moved : string) : Prop :=
  ∀ h m, 0 ≤ h < 24 → 0 ≤ m < 60 → time = time_text h m →
    moved = time_text
              ((h + match direction with Next => 1 | Previous => -1 end) `mod` 24) m.




(** What an edit of a draft row leaves, field by field: the identifier
    stays, the field that the input belongs to takes the value typed, and
    every other field stays. *)
Definition edited (kv : ExerciseField) (row row' : ExercisePlan) : Prop :=
  e_id row' = e_id row
  ∧ e_name row' = match kv with SetExName v => v | _ => e_name row end
  ∧ e_focus row' = match kv with SetExFocus v => v | _ => e_focus row end
  ∧ e_sets row' = match kv with SetExSets v => v | _ => e_sets row end
  ∧ e_reps row' = match kv with SetExReps v => v | _ => e_reps row end
  ∧ e_notes row' = match kv with SetExNotes v => v | _ => e_notes row end.

(** The number of sessions of a list that have a given intensity. *)
Definition sessions_of_intensity (intensity : Intensity) (l : list SessionPlan) : Z :=
  Z.of_nat (length (filter (λ session, s_intensity session = intensity) l)).

(** The load of a day as the overview explains it: three for every
    intense session, two for every moderate one and one for every light
    one. *)
Definition weighted_load (l : list SessionPlan) : Z :=
  3 * sessions_of_intensity Intense l + 2 * sessions_of_intensity Moderate l
  + sessions_of_intensity Light l.

(** * Properties *)

(** ** The built-ins on small inputs *)

Example split_time : JS.split ":" "23:30" = ["23"; "30"].
Proof. reflexivity. Qed.
Example split_none : JS.split ":" "2330" = ["2330"].
Proof. reflexivity. Qed.
Example parseInt_08 : JS.parseInt (Some "08") = Some 8.
Proof. reflexivity. Qed.
Example parseInt_neg : JS.parseInt (Some " -12x") = Some (-12).
Proof. reflexivity. Qed.
Example parseInt_empty : JS.parseInt (Some "") = None.
Proof. reflexivity. Qed.
Example padStart_5 : JS.padStart 2 "0" (JS.toString (Some 5)) = "05".
Proof. vm_compute. reflexivity. Qed.
Example trim_blank : JS.trim "  	 " = "".
Proof. reflexivity. Qed.
Example trim_word : JS.trim "  a b  " = "a b".
Proof. reflexivity. Qed.
Example trim_ideographic_space :
  JS.trim (String "227" (String "128" (String "128" "a "))) = "a".
Proof. reflexivity. Qed.
Example parseInt_em_space :
  JS.parseInt (Some (String "226" (String "128" (String "131" "7")))) = Some 7.
Proof. reflexivity. Qed.
Example sort_stable :
  JS.sort (λ a b : Z * Z, a.1 - b.1) [(2, 0); (1, 1); (2, 2); (1, 3)]
  = [(1, 1); (1, 3); (2, 0); (2, 2)].
Proof. reflexivity. Qed.
Example adjustTime_wraps_forward : adjustTime 60 "23:30" = "00:30".
Proof. vm_compute. reflexivity. Qed.
Example adjustTime_wraps_backward : adjustTime (-60) "00:20" = "23:20".
Proof. vm_compute. reflexivity. Qed.
Example adjustTime_empty : adjustTime (-60) "" = "NaN:NaN".
Proof. vm_compute. reflexivity. Qed.
Example nextSessionId_initial :
  nextSessionId (sessions initial_state) = Some (uuid_of 10).
Proof. vm_compute. reflexivity. Qed.

(** ** White space *)

(** Membership in a list that is written out. *)
Ltac in_list := repeat first [apply list_elem_of_here | apply list_elem_of_further].

Lemma ascii_of_code (a : ascii) (n : nat) : nat_of_ascii a = n → a = ascii_of_nat n.
Proof. intros <-. by rewrite ascii_nat_embedding. Qed.

Lemma is_white1_char (a : ascii) :
  JS.is_white1 a = true → String a "" ∈ white_space_characters.
Proof.
  unfold JS.is_white1. intros H%bool_decide_eq_true.
  assert (∃ n, nat_of_ascii a = n ∧ (n = 9 ∨ n = 10 ∨ n = 11 ∨ n = 12 ∨ n = 13 ∨ n = 32)%nat)
    as (n & Hn%ascii_of_code & Hc) by (eexists; split; [done|lia]).
  subst a. unfold white_space_characters.
  destruct Hc as [->|[->|[->|[->|[->| ->]]]]]; in_list.
Qed.

Lemma is_white2_char (a b : ascii) :
  JS.is_white2 a b = true → String a (String b "") ∈ white_space_characters.
Proof.
  unfold JS.is_white2. intros [Ha%ascii_of_code Hb%ascii_of_code]%bool_decide_eq_true.
  subst. unfold white_space_characters. in_list.
Qed.

Lemma is_white3_char (a b c : ascii) :
  JS.is_white3 a b c = true →
  String a (String b (String c "")) ∈ white_space_characters.
Proof.
  unfold JS.is_white3. intros H%bool_decide_eq_true.
  assert (∃ x y z, nat_of_ascii a = x ∧ nat_of_ascii b = y ∧ nat_of_ascii c = z
    ∧ ((x = 225 ∧ y = 154 ∧ z = 128)
       ∨ (x = 226 ∧ y = 128 ∧ (z = 128 ∨ z = 129 ∨ z = 130 ∨ z = 131 ∨ z = 132
            ∨ z = 133 ∨ z = 134 ∨ z = 135 ∨ z = 136 ∨ z = 137 ∨ z = 138
            ∨ z = 168 ∨ z = 169 ∨ z = 175))
       ∨ (x = 226 ∧ y = 129 ∧ z = 159)
       ∨ (x = 227 ∧ y = 128 ∧ z = 128)
       ∨ (x = 239 ∧ y = 187 ∧ z = 191))%nat)
    as (x & y & z & Hx%ascii_of_code & Hy%ascii_of_code & Hz%ascii_of_code & Hc)
    by (eexists _, _, _; split_and!; [done..|lia]).
  subst a b c. unfold white_space_characters.
  destruct Hc as [(-> & -> & ->)|[(-> & -> & Hz)|[(-> & -> & ->)|[(-> & -> & ->)|(-> & -> & ->)]]]];
    [in_list| |in_list|in_list|in_list].
  destruct Hz as [->|[->|[->|[->|[->|[->|[->|[->|[->|[->|[->|[->|[->| ->]]]]]]]]]]]]];
    in_list.
Qed.

Lemma pieces_white (w r : string) :
  w ∈ white_space_characters → JS.pieces (w +:+ r) = (true, w) :: JS.pieces r.
Proof.
  unfold white_space_characters. intros H.
  repeat (apply elem_of_cons in H as [->|H]; [reflexivity|]).
  by apply elem_of_nil in H.
Qed.

Lemma without_white_char (w r : string) :
  w ∈ white_space_characters → without_white (w +:+ r) = Some r.
Proof.
  unfold white_space_characters. intros H.
  repeat (apply elem_of_cons in H as [->|H]; [reflexivity|]).
  by apply elem_of_nil in H.
Qed.

Lemma without_prefix_Some (p s r : string) :
  without_prefix p s = Some r → s = p +:+ r.
Proof.
  revert s. induction p as [|a p IH]; intros s; simpl; [by intros [= ->]|].
  destruct s as [|b s]; [done|]. case_decide as Hab; [|done]. intros ->%IH.
  by rewrite Hab.
Qed.

Lemma without_white_Some (s r : string) :
  without_white s = Some r → ∃ w, w ∈ white_space_characters ∧ s = w +:+ r.
Proof.
  unfold without_white. intros H.
  assert (r ∈ omap (λ w, without_prefix w s) white_space_characters) as Hin.
  { destruct (omap _ white_space_characters) as [|x l]; [done|].
    simpl in H. injection H as ->. apply list_elem_of_here. }
  apply list_elem_of_omap in Hin as (w & Hw & Hr). exists w. split; [done|].
  by apply without_prefix_Some.
Qed.

Lemma pieces_head (s : string) :
  match JS.pieces s with
  | [] => s = ""
  | (true, w) :: ps =>
      w ∈ white_space_characters ∧ ∃ r, s = w +:+ r ∧ ps = JS.pieces r
  | (false, w) :: ps => ∃ a r, w = String a "" ∧ s = String a r ∧ ps = JS.pieces r
  end.
Proof.
  destruct s as [|a s1]; [done|]. cbn [JS.pieces].
  destruct (JS.is_white1 a) eqn:E1.
  { split; [by apply is_white1_char|]. by exists s1. }
  destruct s1 as [|b s2]; [by exists a, ""|].
  destruct (JS.is_white2 a b) eqn:E2.
  { split; [by apply is_white2_char|]. by exists s2. }
  destruct s2 as [|c s3]; [by exists a, (String b "")|].
  destruct (JS.is_white3 a b c) eqn:E3.
  { split; [by apply is_white3_char|]. by exists s3. }
  by exists a, (String b (String c s3)).
Qed.

Lemma white_space_nonempty (w : string) : w ∈ white_space_characters → w ≠ "".
Proof.
  unfold white_space_characters. intros H.
  repeat (apply elem_of_cons in H as [->|H]; [done|]). by apply elem_of_nil in H.
Qed.

(** Statements about all texts go by the length of the text, as [pieces]
    steps over one, two or three bytes. *)
Lemma by_length (P : string → Prop) :
  (∀ s, (∀ r, (String.length r < String.length s)%nat → P r) → P s) → ∀ s, P s.
Proof.
  intros Hstep s. remember (String.length s) as n eqn:Hn. revert s Hn.
  induction (lt_wf n) as [n _ IH]. intros s ->. apply Hstep.
  intros r Hr. by apply (IH (String.length r)).
Qed.

Lemma length_app_string (w r : string) :
  String.length (w +:+ r) = (String.length w + String.length r)%nat.
Proof. induction w as [|a w IH]; simpl; [done|]. by rewrite IH. Qed.

Lemma join_pieces (s : string) : JS.join (JS.pieces s) = s.
Proof.
  induction s as [s IH] using by_length. pose proof (pieces_head s) as H.
  destruct (JS.pieces s) as [|[[] w] ps]; [done| |].
  - destruct H as (Hw & r & -> & ->). simpl. rewrite IH; [done|].
    rewrite length_app_string. apply white_space_nonempty in Hw.
    destruct w; [done|simpl; lia].
  - destruct H as (a & r & -> & -> & ->). simpl. rewrite IH; [done|simpl; lia].
Qed.

Lemma pieces_nonempty (s : string) : Forall (λ p, p.2 ≠ "") (JS.pieces s).
Proof.
  induction s as [s IH] using by_length. pose proof (pieces_head s) as H.
  destruct (JS.pieces s) as [|[[] w] ps]; [done| |].
  - destruct H as (Hw & r & -> & ->). constructor; [by apply white_space_nonempty|].
    apply IH. rewrite length_app_string. apply white_space_nonempty in Hw.
    destruct w; [done|simpl; lia].
  - destruct H as (a & r & -> & -> & ->). constructor; [done|]. apply IH. simpl; lia.
Qed.

Lemma blank_within_pieces (n : nat) (s : string) :
  blank_within n s → Forall (λ p, p.1 = true) (JS.pieces s).
Proof.
  revert s. induction n as [|n IH]; intros s; simpl; [by intros ->|].
  intros [->|H]; [done|]. destruct (without_white s) as [r|] eqn:E; [|done].
  apply without_white_Some in E as (w & Hw & ->). rewrite pieces_white by done.
  constructor; [done|]. by apply IH.
Qed.

Lemma pieces_blank_within (n : nat) (s : string) :
  (String.length s ≤ n)%nat → Forall (λ p, p.1 = true) (JS.pieces s) →
  blank_within n s.
Proof.
  revert s. induction n as [|n IH]; intros s Hn Hall; simpl.
  { destruct s; [done|simpl in Hn; lia]. }
  pose proof (pieces_head s) as H.
  destruct (JS.pieces s) as [|[[] w] ps]; [by left| |].
  - destruct H as (Hw & r & -> & ->). right. rewrite without_white_char by done.
    apply Forall_cons in Hall as [_ Hall]. apply IH; [|done].
    rewrite length_app_string in Hn. apply white_space_nonempty in Hw.
    destruct w; [done|simpl in Hn; lia].
  - by apply Forall_cons in Hall as [? _].
Qed.

Lemma blank_pieces (s : string) :
  blank s ↔ Forall (λ p, p.1 = true) (JS.pieces s).
Proof. split; [apply blank_within_pieces|by apply pieces_blank_within]. Qed.

Lemma drop_white_all (ps : list (bool * string)) :
  JS.drop_white ps = [] ↔ Forall (λ p, p.1 = true) ps.
Proof.
  induction ps as [|[[] w] ps IH]; simpl.
  - done.
  - rewrite IH. split; [by constructor|]. by intros [_ ?]%Forall_cons.
  - split; [done|]. by intros [? _]%Forall_cons.
Qed.

Lemma drop_white_head (ps : list (bool * string)) :
  match JS.drop_white ps with
  | (true, _) :: _ => False
  | _ => True
  end.
Proof. induction ps as [|[[] w] ps IH]; simpl; done. Qed.

Lemma join_empty (ps : list (bool * string)) :
  Forall (λ p, p.2 ≠ "") ps → JS.join ps = "" → ps = [].
Proof.
  destruct 1 as [|[b w] ps Hw _]; [done|]. simpl in *. by destruct w.
Qed.

Lemma drop_white_Forall (P : bool * string → Prop) (ps : list (bool * string)) :
  Forall P ps → Forall P (JS.drop_white ps).
Proof. induction 1 as [|[[] w] ps Hp Hps IH]; simpl; [done|done|by constructor]. Qed.

(** A text is trimmed to the empty text exactly when it is blank. *)
Lemma trim_empty (s : string) : JS.trim s = "" ↔ blank s.
Proof.
  rewrite blank_pieces, <-drop_white_all. unfold JS.trim. split.
  - intros H%join_empty.
    + apply (f_equal reverse) in H. rewrite reverse_involutive in H.
      apply drop_white_all in H. pose proof (drop_white_head (JS.pieces s)) as Hh.
      destruct (JS.drop_white (JS.pieces s)) as [|[[] w] ps]; [done|done|].
      rewrite reverse_cons in H. apply Forall_app in H as [_ H].
      apply Forall_inv in H. simpl in H. discriminate H.
    + apply Forall_reverse, drop_white_Forall, Forall_reverse, drop_white_Forall.
      apply pieces_nonempty.
  - by intros ->.
Qed.

Lemma blank_trim (s : string) : blank s → JS.trim s = "".
Proof. apply trim_empty. Qed.

Lemma trimStart_plain (a : ascii) (s : string) :
  JS.is_white1 a = false → (∀ b c, JS.is_white2 a b = false ∧ JS.is_white3 a b c = false) →
  JS.trimStart (String a s) = String a s.
Proof.
  intros H1 H23. unfold JS.trimStart. rewrite <-(join_pieces (String a s)) at 2.
  f_equal. cbn [JS.pieces]. rewrite H1. destruct s as [|b s2]; [done|].
  rewrite (proj1 (H23 b a)). destruct s2 as [|c s3]; [done|].
  by rewrite (proj2 (H23 b c)).
Qed.

(** ** Time shift *)

Lemma digit_char_cases (d : Z) :
  0 ≤ d ≤ 9 →
  d = 0 ∨ d = 1 ∨ d = 2 ∨ d = 3 ∨ d = 4 ∨ d = 5 ∨ d = 6 ∨ d = 7 ∨ d = 8 ∨ d = 9.
Proof. lia. Qed.

Ltac digit_cases d H :=
  destruct (digit_char_cases d H) as [->|[->|[->|[->|[->|[->|[->|[->|[->| ->]]]]]]]]].

Lemma digit_digit_char (d : Z) : 0 ≤ d ≤ 9 → JS.digit (digit_char d) = Some d.
Proof. intros H. digit_cases d H; reflexivity. Qed.

Lemma digit_char_plain (d : Z) :
  0 ≤ d ≤ 9 →
  digit_char d ≠ ":"%char ∧ digit_char d ≠ "-"%char ∧ digit_char d ≠ "+"%char
  ∧ ∀ s, JS.trimStart (String (digit_char d) s) = String (digit_char d) s.
Proof.
  intros H. split_and!; [digit_cases d H; done..|]. intros s.
  apply trimStart_plain; [digit_cases d H; done|]. intros b c.
  assert (nat_of_ascii (digit_char d) < 128)%nat as Hlt
    by (digit_cases d H; apply Nat.ltb_lt; reflexivity).
  split; apply bool_decide_eq_false; lia.
Qed.

Lemma two_digits_range (n : Z) :
  0 ≤ n < 100 → 0 ≤ n `div` 10 ≤ 9 ∧ 0 ≤ n `mod` 10 ≤ 9.
Proof.
  intros H. pose proof (Z.mod_pos_bound n 10). pose proof (Z.div_pos n 10).
  pose proof (Z.div_lt_upper_bound n 10 10). lia.
Qed.

Lemma split_two_two (a b c d : ascii) :
  a ≠ ":"%char → b ≠ ":"%char → c ≠ ":"%char → d ≠ ":"%char →
  JS.split ":" (String a (String b (String ":" (String c (String d "")))))
  = [String a (String b ""); String c (String d "")].
Proof.
  intros. cbn [JS.split]. repeat (case_decide; [done|]).
  rewrite decide_True by done. repeat (case_decide; [done|]). done.
Qed.

Lemma split_time_text (h m : Z) :
  0 ≤ h < 100 → 0 ≤ m < 100 →
  JS.split ":" (time_text h m) = [two_digits h; two_digits m].
Proof.
  intros Hh Hm.
  destruct (two_digits_range h Hh) as [Hh1 Hh2], (two_digits_range m Hm) as [Hm1 Hm2].
  destruct (digit_char_plain _ Hh1) as (?&_), (digit_char_plain _ Hh2) as (?&_),
    (digit_char_plain _ Hm1) as (?&_), (digit_char_plain _ Hm2) as (?&_).
  by apply split_two_two.
Qed.

Lemma parseInt_digit_pair (a b : ascii) (x y : Z) :
  JS.digit a = Some x → JS.digit b = Some y →
  a ≠ "-"%char → a ≠ "+"%char → (∀ s, JS.trimStart (String a s) = String a s) →
  JS.parseInt (Some (String a (String b ""))) = Some (10 * x + y).
Proof.
  intros Ha Hb Hm Hp Hw. unfold JS.parseInt. rewrite Hw.
  assert (JS.digits_prefix false 0 (String a (String b "")) = Some (10 * x + y)) as Hd.
  { cbn [JS.digits_prefix]. rewrite Ha, Hb. f_equal; lia. }
  destruct a as [[] [] [] [] [] [] [] []]; try exact Hd; done.
Qed.

Lemma parseInt_two_digits (n : Z) :
  0 ≤ n < 100 → JS.parseInt (Some (two_digits n)) = Some n.
Proof.
  intros Hn. destruct (two_digits_range n Hn) as [H1 H2].
  destruct (digit_char_plain _ H1) as (_&Hm&Hp&Hw).
  unfold two_digits.
  rewrite (parseInt_digit_pair _ _ (n `div` 10) (n `mod` 10))
    by auto using digit_digit_char.
  f_equal. pose proof (Z.div_mod n 10). lia.
Qed.

Lemma pad_two_digits_upto :
  forallb (λ n : nat,
    bool_decide (JS.padStart 2 "0" (JS.toString (Some (Z.of_nat n)))
                 = two_digits (Z.of_nat n))) (seq 0 100) = true.
Proof. vm_compute. reflexivity. Qed.

Lemma pad_two_digits (n : Z) :
  0 ≤ n < 100 → JS.padStart 2 "0" (JS.toString (Some n)) = two_digits n.
Proof.
  intros Hn. pose proof pad_two_digits_upto as H.
  rewrite forallb_forall in H. specialize (H (Z.to_nat n)).
  rewrite Z2Nat.id in H by lia.
  eapply bool_decide_eq_true, H, in_seq. lia.
Qed.

Lemma shifted_mod (h m offset : Z) :
  shifted h m offset = (h * 60 + m + offset) `mod` 1440.
Proof. unfold shifted. Z.to_euclidean_division_equations. lia. Qed.

Lemma shifted_range (h m offset : Z) : 0 ≤ shifted h m offset < 1440.
Proof. rewrite shifted_mod. apply Z.mod_pos_bound. lia. Qed.

Lemma adjustTime_time_text (offset h m : Z) :
  0 ≤ h < 100 → 0 ≤ m < 100 →
  adjustTime offset (time_text h m)
  = time_text (shifted h m offset `div` 60) (Z.rem (shifted h m offset) 60).
Proof.
  intros Hh Hm. unfold adjustTime.
  rewrite split_time_text by done. cbn [lookup list_lookup].
  rewrite !parseInt_two_digits by done. 
  pose proof (shifted_range h m offset) as Hr.
  change (JS.rem _ (Some (24 * 60))) with (Some (shifted h m offset)).
  change (JS.floor_div _ _) with (Some (shifted h m offset `div` 60)).
  change (JS.rem (Some (shifted h m offset)) (Some 60))
    with (Some (Z.rem (shifted h m offset) 60)).
  rewrite !pad_two_digits; [done|..].
  - Z.to_euclidean_division_equations; lia.
  - Z.to_euclidean_division_equations; lia.
Qed.

(** ** The handlers as state transformers *)

(** Equalities of states that differ in how a number is written. *)
Ltac eq_up_to_nat := repeat first [done | lia | progress f_equal].

Lemma drawn_0 (st : State) : drawn 0 st = st.
Proof. destruct st. unfold drawn. simpl. by rewrite Nat.add_0_r. Qed.

Lemma uuid_run (st : State) : uuid st = (uuid_of (supply st), drawn 1 st).
Proof. unfold uuid, drawn. by rewrite Nat.add_1_r. Qed.

Lemma drawn_drawn (j k : nat) (st : State) : drawn k (drawn j st) = drawn (j + k) st.
Proof. unfold drawn. simpl. f_equal. lia. Qed.

Lemma mapM_fresh_copy (l : list ExercisePlan) (st : State) :
  mapM fresh_copy l st = (fresh_copies (supply st) l, drawn (length l) st).
Proof.
  revert st. induction l as [|x l IH]; intros st.
  - simpl. by rewrite drawn_0.
  - cbn [mapM]. unfold mbind at 1, M_bind. unfold fresh_copy at 1.
    unfold mbind at 1, M_bind. rewrite uuid_run.
    unfold mret at 1, M_ret. unfold mbind, M_bind. rewrite IH.
    unfold mret, M_ret, fresh_copies. simpl. rewrite drawn_drawn.
    rewrite Nat.add_0_r. do 2 f_equal.
    apply imap_ext. intros i y _. simpl. do 2 f_equal. lia.
Qed.

Lemma fresh_copies_length (n : nat) (l : list ExercisePlan) :
  length (fresh_copies n l) = length l.
Proof. apply length_imap. Qed.

Lemma filter_named_blank (l : list ExercisePlan) :
  Forall (λ exercise, blank (e_name exercise)) l →
  filter (λ exercise, (0 < String.length (JS.trim (e_name exercise)))%nat) l = [].
Proof.
  induction 1 as [|x l Hx _ IH]; [done|].
  rewrite filter_cons_False; [done|]. rewrite (blank_trim _ Hx). simpl. lia.
Qed.

Lemma addSession_run (custom : option (list ExercisePlan)) (st : State) :
  let kept := filter (λ exercise, (0 < String.length (JS.trim (e_name exercise)))%nat)
                (default (exerciseDrafts st) custom) in
  let n := supply st in
  let k := length kept in
  exec (addSession custom) st =
    if decide (k = 0%nat)
    then {| sessions := sessions st ++
              [session_of_form (uuid_of (S n)) (sessionForm st) [fallback (uuid_of n)]];
            sessionForm := sessionForm st;
            exerciseDrafts := [blank_draft (uuid_of (S (S n))) "8-12"];
            supply := (n + 3)%nat |}
    else {| sessions := sessions st ++
              [session_of_form (uuid_of (n + k)) (sessionForm st) (fresh_copies n kept)];
            sessionForm := sessionForm st;
            exerciseDrafts := [blank_draft (uuid_of (S (n + k))) "8-12"];
            supply := (n + k + 2)%nat |}.
Proof.
  intros kept n k. unfold exec, addSession.
  unfold mbind at 1, M_bind, gets. unfold mbind at 1, M_bind.
  unfold mbind at 1, M_bind. rewrite mapM_fresh_copy. fold kept. fold n.
  unfold mbind at 1, M_bind. rewrite fresh_copies_length. fold k.
  destruct (decide (k = 0%nat)) as [Hk|Hk].
  - assert (kept = []) as -> by (by apply nil_length_inv).
    unfold mbind, M_bind, mret, M_ret. rewrite !uuid_run. subst n k. simpl.
    rewrite !Nat.add_0_r. eq_up_to_nat.
  - unfold mbind, M_bind, mret, M_ret. rewrite !uuid_run. simpl.
    f_equal; [|lia]. unfold blank_draft. do 4 f_equal. lia.
Qed.

Lemma nextIndex_in_range (direction : Direction) (d : DayKey) :
  JS.at_ dayKeys (nextIndex direction (JS.indexOf d dayKeys))
  = Some (adjacent_day direction d).
Proof. by destruct direction, d. Qed.

Lemma find_first (P : SessionPlan → Prop) `{∀ x, Decision (P x)}
    (before after : list SessionPlan) (target : SessionPlan) :
  Forall (λ s, ¬ P s) before → P target →
  JS.find P (before ++ target :: after) = Some target.
Proof.
  intros Hb Ht. unfold JS.find.
  assert (list_find P (before ++ target :: after) = Some (length before, target)) as ->;
    [|done].
  apply list_find_Some. split_and!; [|done|].
  - by rewrite lookup_app_r, Nat.sub_diag.
  - intros j y Hj Hlt. rewrite lookup_app_l in Hj by done.
    rewrite Forall_forall in Hb. eapply Hb, list_elem_of_lookup_2, Hj.
Qed.

Lemma find_None (P : SessionPlan → Prop) `{∀ x, Decision (P x)} (l : list SessionPlan) :
  Forall (λ s, ¬ P s) l → JS.find P l = None.
Proof.
  intros Hl. unfold JS.find.
  by rewrite (proj2 (list_find_None P l) Hl).
Qed.

Lemma find_Some (P : SessionPlan → Prop) `{∀ x, Decision (P x)}
    (l : list SessionPlan) (target : SessionPlan) :
  JS.find P l = Some target →
  ∃ before after, l = before ++ target :: after ∧ Forall (λ s, ¬ P s) before ∧ P target.
Proof.
  unfold JS.find. destruct (list_find P l) as [[i x]|] eqn:E; [|done].
  intros [= ->]. apply list_find_Some in E as (Hi & HP & Hb).
  exists (take i l), (drop (S i) l). split_and!; [|by apply Forall_forall; intros y
    [j Hj]%list_elem_of_lookup; pose proof (lookup_lt_Some _ _ _ Hj) as Hlt;
    rewrite lookup_take_lt in Hj by (rewrite length_take in Hlt; lia);
    apply (Hb j); [done|rewrite length_take in Hlt; lia]|done].
  by rewrite <-(take_drop_middle l i target) at 1.
Qed.

Lemma duplicateSession_run (sessionId : string) (direction : Direction)
    (today : string) (st : State) :
  exec (duplicateSession sessionId direction today) st =
    match JS.find (λ session, s_id session = sessionId) (sessions st) with
    | None => st
    | Some target =>
        {| sessions := sessions st ++ [copy_of target direction today (supply st)];
           sessionForm := sessionForm st; exerciseDrafts := exerciseDrafts st;
           supply := (supply st + 1 + length (s_exercises target))%nat |}
    end.
Proof.
  unfold exec, duplicateSession. unfold mbind at 1, M_bind, gets.
  destruct (JS.find _ _) as [target|]; [|done].
  rewrite nextIndex_in_range. unfold mbind, M_bind. rewrite uuid_run.
  rewrite mapM_fresh_copy. simpl. unfold copy_of. eq_up_to_nat.
Qed.

Lemma applyTemplateToDay_run (day : DayKey) (templateIndex : Z) (st : State) :
  applyTemplateToDay day templateIndex st =
    template ← JS.at_ templates templateIndex;
    Some {| sessions := sessions st ++ [session_of_template template day (supply st)];
            sessionForm := sessionForm st; exerciseDrafts := exerciseDrafts st;
            supply := (supply st + 1 + length (t_exercises template))%nat |}.
Proof.
  unfold applyTemplateToDay. destruct (JS.at_ _ _) as [template|]; [|done].
  simpl. f_equal. unfold exec, mbind, M_bind. rewrite uuid_run, mapM_fresh_copy.
  simpl. unfold session_of_template. eq_up_to_nat.
Qed.

Lemma at_templates (templateIndex : Z) :
  0 ≤ templateIndex < 3 → is_Some (JS.at_ templates templateIndex).
Proof.
  intros H. assert (templateIndex = 0 ∨ templateIndex = 1 ∨ templateIndex = 2)
    as [->|[->| ->]] by lia; by eexists.
Qed.

(** ** Add Session *)

Lemma addSession_appends (custom : option (list ExercisePlan)) (st : State) :
  ∃ added, sessions (exec (addSession custom) st) = sessions st ++ [added]
           ∧ s_exercises added ≠ [].
Proof.
  rewrite addSession_run. cbv zeta. case_decide as Hk.
  - by eexists.
  - eexists. split; [done|]. simpl. intros Hnil. apply Hk.
    by rewrite <-(fresh_copies_length (supply st)), Hnil.
Qed.

(** C2: when every exercise draft has a blank name, a name that is empty
    or made only of the white-space characters of the language, Add Session
    appends exactly one session, whose only exercise is the fallback
    "Full-Body Circuit" with 5 sets and "45s on / 15s off"; the store keeps
    the invariant that every session has an exercise. *)
Theorem addSession_blank_drafts (st : State) :
  Forall (λ exercise, blank (e_name exercise)) (exerciseDrafts st) →
  let st' := exec (addSession None) st in
  let added :=
    session_of_form (uuid_of (S (supply st))) (sessionForm st)
      [fallback (uuid_of (supply st))] in
  sessions st' = sessions st ++ [added]
  ∧ length (sessions st') = S (length (sessions st))
  ∧ (∃ exercise, s_exercises added = [exercise]
       ∧ e_name exercise = "Full-Body Circuit" ∧ e_sets exercise = 5
       ∧ e_reps exercise = "45s on / 15s off")
  ∧ (sessions_nonempty (sessions st) → sessions_nonempty (sessions st')).
Proof.
  intros Hblank st' added.
  assert (sessions st' = sessions st ++ [added]) as Hst'.
  { subst st'. rewrite addSession_run. cbv zeta. simpl.
    rewrite (filter_named_blank _ Hblank). done. }
  split_and!.
  - done.
  - rewrite Hst', length_app. simpl. lia.
  - by eexists.
  - intros Hinv. rewrite Hst'. apply Forall_app. split; [done|].
    by apply Forall_singleton.
Qed.


Lemma addSession_blank_drafts_witness :
  sessions
    (exec (addSession None)
       (exec (handleExerciseChange (uuid_of 11)
                (SetExName (String "009" (String "227" (String "128" (String "128" " "))))))
          initial_state))
  = sessions initial_state
    ++ [session_of_form (uuid_of 13) initialSessionForm [fallback (uuid_of 12)]].
Proof.
  apply (addSession_blank_drafts
           (exec (handleExerciseChange (uuid_of 11)
                    (SetExName (String "009" (String "227" (String "128" (String "128" " "))))))
              initial_state)).
  apply Forall_singleton. apply (bool_decide_unpack _). vm_compute. exact I.
Defined.

(** ** Duplicate Session *)

Lemma id_absent (sessionId : string) (l : list SessionPlan) :
  sessionId ∉ session_ids l ↔ Forall (λ session, s_id session ≠ sessionId) l.
Proof.
  unfold session_ids. rewrite Forall_forall. split.
  - intros Hn s Hs ?. apply Hn, list_elem_of_fmap. by exists s.
  - intros Hall (s & -> & Hs)%list_elem_of_fmap. by apply (Hall s).
Qed.

Lemma id_present (sessionId : string) (l : list SessionPlan) :
  sessionId ∈ session_ids l →
  is_Some (JS.find (λ session, s_id session = sessionId) l).
Proof.
  intros Hin. destruct (JS.find _ l) eqn:E; [by eexists|].
  unfold JS.find in E. destruct (list_find _ l) eqn:E'; [done|].
  apply list_find_None in E'. by apply id_absent in E'.
Qed.

(** C6: the copy of a session lands on the day one step further in the
    cycle Monday..Sunday, forward for "next" and backward for "previous";
    from Sunday "next" gives Monday, from Monday "previous" gives Sunday. *)
Theorem duplicateSession_adjacent_day (st : State) (before after : list SessionPlan)
    (target : SessionPlan) (direction : Direction) (today : string) :
  sessions st = before ++ target :: after →
  Forall (λ session, s_id session ≠ s_id target) before →
  ∃ copy,
    sessions (exec (duplicateSession (s_id target) direction today) st)
    = sessions st ++ [copy]
    ∧ s_day copy = adjacent_day direction (s_day target)
    ∧ (direction = Next → s_day target = Sunday → s_day copy = Monday)
    ∧ (direction = Previous → s_day target = Monday → s_day copy = Sunday).
Proof.
  intros Hst Hbefore. rewrite duplicateSession_run, Hst.
  rewrite find_first by done. eexists. split; [done|]. simpl.
  split_and!; [done|by intros -> ->..].
Qed.

Lemma duplicateSession_adjacent_day_witness :
  ∃ copy,
    sessions (exec (duplicateSession (uuid_of 10) Previous "Nov 1") initial_state)
    = sessions initial_state ++ [copy]
    ∧ s_day copy = Sunday.
Proof.
  destruct (duplicateSession_adjacent_day initial_state [] []
              (session_of_form (uuid_of 10) initialSessionForm defaultExercises)
              Previous "Nov 1" eq_refl (Forall_nil_2 _))
    as (copy & Hs & Hd & _).
  exists copy. split; [exact Hs | exact Hd].
Defined.

Lemma duplicateSession_cases (st : State) (sessionId : string)
    (direction : Direction) (today : string) :
  let st' := exec (duplicateSession sessionId direction today) st in
  (sessionId ∈ session_ids (sessions st) →
   ∃ copy, sessions st' = sessions st ++ [copy])
  ∧ (sessionId ∉ session_ids (sessions st) → st' = st).
Proof.
  intros st'. subst st'. rewrite duplicateSession_run. split.
  - intros [target ->]%id_present. by eexists.
  - intros Hn%id_absent. by rewrite find_None.
Qed.

(** C7: Duplicate Session leaves every session of the store as it was, at
    the position it had; for an identifier of the store it appends one
    session, and for any other it changes nothing. *)
Theorem duplicateSession_frame (st : State) (sessionId : string)
    (direction : Direction) (today : string) :
  let st' := exec (duplicateSession sessionId direction today) st in
  (∀ i session, sessions st !! i = Some session → sessions st' !! i = Some session)
  ∧ (sessionId ∈ session_ids (sessions st) →
     ∃ copy, sessions st' = sessions st ++ [copy])
  ∧ (sessionId ∉ session_ids (sessions st) → st' = st).
Proof.
  intros st'. split; [|by apply duplicateSession_cases].
  intros i session Hi. subst st'. rewrite duplicateSession_run.
  destruct (JS.find _ _); [|done]. simpl. by apply lookup_app_l_Some.
Qed.

Lemma duplicateSession_frame_witness :
  sessions (exec (duplicateSession (uuid_of 10) Next "Nov 1") initial_state) !! 0%nat
  = Some (session_of_form (uuid_of 10) initialSessionForm defaultExercises)
  ∧ exec (duplicateSession "absent" Next "Nov 1") initial_state = initial_state.
Proof.
  pose proof (duplicateSession_frame initial_state (uuid_of 10) Next "Nov 1") as (H1 & _).
  pose proof (duplicateSession_frame initial_state "absent" Next "Nov 1") as (_ & _ & H3).
  split.
  - apply H1. reflexivity.
  - apply H3. vm_compute. intros H. inversion H as [|? ? ? H']; inversion H'.
Defined.

(** ** Remove Session and Clear Day *)

Lemma filter_other_ids_absent (sessionId : string) (l : list SessionPlan) :
  sessionId ∉ session_ids l →
  filter (λ session, s_id session ≠ sessionId) l = l.
Proof.
  intros Hn%id_absent. induction Hn as [|s l Hs _ IH]; [done|].
  by rewrite filter_cons_True, IH.
Qed.

Lemma filter_other_ids_present (sessionId : string) (l : list SessionPlan) :
  NoDup (session_ids l) → sessionId ∈ session_ids l →
  S (length (filter (λ session, s_id session ≠ sessionId) l)) = length l.
Proof.
  unfold session_ids. induction l as [|s l IH]; simpl.
  - by intros _ ?%elem_of_nil.
  - intros [Hs Hl]%NoDup_cons Hin. destruct (decide (s_id s = sessionId)) as [<-|Hne].
    + rewrite filter_cons_False by (by intros ?).
      by rewrite (filter_other_ids_absent (s_id s) l).
    + rewrite filter_cons_True by done. simpl. f_equal. apply IH; [done|].
      apply elem_of_cons in Hin as [?|?]; [congruence|done].
Qed.

Lemma State_eta (st : State) :
  {| sessions := sessions st; sessionForm := sessionForm st;
     exerciseDrafts := exerciseDrafts st; supply := supply st |} = st.
Proof. by destruct st. Qed.

(** C9: in a store whose identifiers are unique, Remove Session makes the
    store one session shorter when the identifier is there; when it is
    not, the state stays as it is. *)
Theorem removeSession_size (st : State) (sessionId : string) :
  NoDup (session_ids (sessions st)) →
  let st' := exec (removeSession sessionId) st in
  (sessionId ∈ session_ids (sessions st) →
   S (length (sessions st')) = length (sessions st))
  ∧ (sessionId ∉ session_ids (sessions st) → st' = st).
Proof.
  intros Hnd st'. subst st'. unfold exec, removeSession, setSessions. simpl. split.
  - intros Hin. by apply filter_other_ids_present.
  - intros Hn. rewrite filter_other_ids_absent by done. apply State_eta.
Qed.

Lemma removeSession_size_witness :
  S (length (sessions (exec (removeSession (uuid_of 10)) initial_state)))
  = length (sessions initial_state)
  ∧ exec (removeSession "absent") initial_state = initial_state.
Proof.
  assert (NoDup (session_ids (sessions initial_state))) as Hnd.
  { vm_compute. repeat constructor. intros H. inversion H. }
  pose proof (removeSession_size initial_state (uuid_of 10) Hnd) as [H1 _].
  pose proof (removeSession_size initial_state "absent" Hnd) as [_ H2].
  split.
  - apply H1. vm_compute. constructor.
  - apply H2. vm_compute. intros H. inversion H as [|? ? ? H']; inversion H'.
Defined.

(** ** Every mutation keeps the sessions that stay, in their order *)

(** C10: Add Session, Apply Template and Duplicate Session put the new
    session behind the sessions of the store and leave these as they were;
    Remove Session and Clear Day keep the sessions that stay in the order
    they had. *)
Theorem mutations_keep_order (st : State) :
  (∀ custom, ∃ added,
     sessions (exec (addSession custom) st) = sessions st ++ [added])
  ∧ (∀ day templateIndex, 0 ≤ templateIndex < 3 →
       ∃ st' added, applyTemplateToDay day templateIndex st = Some st'
                    ∧ sessions st' = sessions st ++ [added])
  ∧ (∀ sessionId direction today,
       let st' := exec (duplicateSession sessionId direction today) st in
       if decide (sessionId ∈ session_ids (sessions st))
       then ∃ copy, sessions st' = sessions st ++ [copy]
       else sessions st' = sessions st)
  ∧ (∀ sessionId,
       let st' := exec (removeSession sessionId) st in
       sessions st' = filter (λ session, s_id session ≠ sessionId) (sessions st)
       ∧ sessions st' `sublist_of` sessions st)
  ∧ (∀ day,
       let st' := exec (clearDay day) st in
       sessions st' = filter (λ session, s_day session ≠ day) (sessions st)
       ∧ sessions st' `sublist_of` sessions st).
Proof.
  split_and!.
  - intros custom. destruct (addSession_appends custom st) as (added & ? & _).
    by exists added.
  - intros day templateIndex [template Ht]%at_templates.
    rewrite applyTemplateToDay_run, Ht. simpl. by do 2 eexists.
  - intros sessionId direction today st'.
    destruct (duplicateSession_cases st sessionId direction today) as (Hin & Hn).
    case_decide; [by apply Hin|]. subst st'. by rewrite Hn.
  - intros sessionId st'. split; [done|]. apply sublist_filter.
  - intros day st'. split; [done|]. apply sublist_filter.
Qed.

Lemma mutations_keep_order_witness :
  ∃ st' added,
    applyTemplateToDay Friday 1 initial_state = Some st'
    ∧ sessions st' = sessions initial_state ++ [added].
Proof.
  apply (mutations_keep_order initial_state). lia.
Defined.

(** ** Where sessions come from *)

Lemma step_new_session (ev : Event) (st st' : State) (session : SessionPlan) :
  step ev st = Some st' → session ∈ sessions st' → session ∉ sessions st →
  creates_session ev.
Proof.
  destruct ev; simpl; try done; intros [= <-] Hin Hn; destruct Hn; revert Hin;
    unfold exec; simpl; try done.
  all: intros Hin; by apply list_elem_of_filter in Hin as [_ ?].
Qed.

(** C4, as the component has it: the store starts with one seeded session,
    the initial form with the two default exercises; from then on a session
    that was not in the store before an action is there after it only if
    the action is Add Session, Apply Template or Duplicate Session. *)
Theorem sessions_created_by_actions :
  sessions initial_state
  = [session_of_form (uuid_of 10) initialSessionForm defaultExercises]
  ∧ ∀ ev st st' session,
      step ev st = Some st' → session ∈ sessions st' → session ∉ sessions st →
      creates_session ev.
Proof. split; [done|]. apply step_new_session. Qed.

Lemma sessions_created_by_actions_witness :
  creates_session AddSessionClick.
Proof.
  destruct sessions_created_by_actions as [_ H].
  apply (H AddSessionClick initial_state (exec (addSession None) initial_state)
           (session_of_form (uuid_of 13) initialSessionForm [fallback (uuid_of 12)])).
  - reflexivity.
  - vm_compute. apply list_elem_of_further, list_elem_of_here.
  - vm_compute. intros H'. inversion H' as [|? ? ? H'']; subst. inversion H''.
Defined.

(** C4 as stated fails: the store holds a session before any action. *)
Lemma initial_store_not_empty : sessions initial_state ≠ [].
Proof. discriminate. Qed.

(** ** The order of texts *)

Lemma ascii_compare_Lt (x y : ascii) :
  Ascii.compare x y = Lt ↔ (nat_of_ascii x < nat_of_ascii y)%nat.
Proof.
  unfold Ascii.compare, nat_of_ascii. rewrite N.compare_lt_iff. lia.
Qed.

Lemma ascii_compare_Eq (x y : ascii) : Ascii.compare x y = Eq ↔ x = y.
Proof.
  split; [apply Ascii.compare_eq_iff|]. intros ->.
  unfold Ascii.compare. apply N.compare_refl.
Qed.

Lemma string_compare_le (a b : string) : String.compare a b ≠ Gt ↔ lex_le a b.
Proof.
  revert b. induction a as [|x a IH]; intros [|y b]; simpl; try done.
  destruct (Ascii.compare x y) eqn:E.
  - apply ascii_compare_Eq in E as ->. rewrite IH. split; [by right|].
    intros [?|[_ ?]]; [lia|done].
  - apply ascii_compare_Lt in E. split; [by left|done].
  - split; [done|]. intros [Hlt|[-> _]].
    + apply ascii_compare_Lt in Hlt. congruence.
    + rewrite (proj2 (ascii_compare_Eq y y) eq_refl) in E. done.
Qed.

Lemma localeCompare_le (a b : string) : JS.localeCompare a b ≤ 0 ↔ lex_le a b.
Proof.
  rewrite <-string_compare_le. unfold JS.localeCompare.
  destruct (String.compare a b); split; (done || lia).
Qed.

Lemma lex_le_total (a b : string) : lex_le a b ∨ lex_le b a.
Proof.
  revert b. induction a as [|x a IH]; intros [|y b]; simpl; auto.
  destruct (lt_eq_lt_dec (nat_of_ascii x) (nat_of_ascii y)) as [[?|Heq]|?]; auto.
  assert (x = y) as -> by (by rewrite <-(ascii_nat_embedding x), Heq, ascii_nat_embedding).
  destruct (IH b); auto.
Qed.

Lemma lex_le_trans (a b c : string) : lex_le a b → lex_le b c → lex_le a c.
Proof.
  revert b c. induction a as [|x a IH]; intros [|y b] [|z c]; simpl; try done.
  intros [?|[-> ?]] [?|[-> ?]]; eauto with lia.
Qed.

(** ** Sorting *)

Section sort.
Context {A : Type} (cmp : A → A → Z).

Let before (a b : A) : Prop := cmp a b ≤ 0.

Hypothesis before_total : ∀ a b, before a b ∨ before b a.
Hypothesis before_trans : ∀ a b c, before a b → before b c → before a c.

Lemma insert_sorted_perm (x : A) (l : list A) : JS.insert_sorted cmp x l ≡ₚ x :: l.
Proof using Type.
  induction l as [|y l IH]; simpl; [done|]. case_decide; [done|].
  by rewrite IH, Permutation_swap.
Qed.

Lemma sort_perm (l : list A) : JS.sort cmp l ≡ₚ l.
Proof using Type.
  induction l as [|x l IH]; [done|]. simpl.
  by rewrite insert_sorted_perm, IH.
Qed.

Lemma insert_sorted_sorted (x : A) (l : list A) :
  StronglySorted before l → StronglySorted before (JS.insert_sorted cmp x l).
Proof using before_total before_trans.
  induction 1 as [|y l Hl IH Hy]; simpl.
  - repeat constructor.
  - case_decide as Hxy.
    + constructor; [by constructor|]. constructor; [done|].
      eapply Forall_impl; [exact Hy|]. intros z. by apply before_trans.
    + constructor; [done|]. rewrite insert_sorted_perm.
      constructor; [|done]. destruct (before_total x y); done.
Qed.

Lemma sort_sorted (l : list A) : StronglySorted before (JS.sort cmp l).
Proof using before_total before_trans.
  induction l as [|x l IH]; simpl; [constructor|by apply insert_sorted_sorted].
Qed.

Lemma sort_head (l : list A) :
  l ≠ [] → ∃ x, JS.sort cmp l !! 0%nat = Some x ∧ x ∈ l ∧ ∀ y, y ∈ l → before x y.
Proof using before_total before_trans.
  intros Hl. pose proof (sort_sorted l) as Hs. pose proof (sort_perm l) as Hp.
  destruct (JS.sort cmp l) as [|x l'] eqn:E.
  { by apply Permutation_nil_l in Hp. }
  exists x. split; [done|]. apply StronglySorted_inv in Hs as [_ Hx].
  split.
  - rewrite <-Hp. apply list_elem_of_here.
  - intros y. rewrite <-Hp. intros [->|Hy]%elem_of_cons.
    + by destruct (before_total x x).
    + rewrite Forall_forall in Hx. by apply Hx.
Qed.
End sort.

(** ** Next session *)

(** A text is a valid time, by its hours and minutes. *)
Ltac valid_time_at h m := exists h, m; split_and!; first [lia | reflexivity].


Lemma indexOf_dayKeys (d : DayKey) : JS.indexOf d dayKeys = day_index d.
Proof. by destruct d. Qed.

Lemma compareSessions_le (a b : SessionPlan) :
  compareSessions a b ≤ 0 ↔ session_le a b.
Proof.
  unfold compareSessions, session_le, start_le. rewrite !indexOf_dayKeys.
  case_decide as Hd.
  - split; [intros ?; left; lia|]. intros [?|[? _]]; lia.
  - rewrite localeCompare_le. split; [intros ?; right; split; [lia|done]|].
    intros [?|[_ ?]]; [lia|done].
Qed.

Lemma session_le_total (a b : SessionPlan) : session_le a b ∨ session_le b a.
Proof.
  unfold session_le, start_le.
  destruct (Z.lt_total (day_index (s_day a)) (day_index (s_day b))) as [?|[?|?]];
    [auto| |auto].
  destruct (lex_le_total (s_start a) (s_start b)); auto.
Qed.

Lemma session_le_trans (a b c : SessionPlan) :
  session_le a b → session_le b c → session_le a c.
Proof.
  unfold session_le, start_le. intros [?|[? ?]] [?|[? ?]]; try (left; lia).
  right. split; [lia|]. by eapply lex_le_trans.
Qed.

(** C3: the next session is null exactly for the empty store; for a store
    that is not empty and whose start times are zero-padded times "HH:MM"
    it is the identifier of a session of the store that no other session
    precedes, by day of the Monday-first week and then by start time in
    lexicographic order. *)
Theorem nextSessionId_least (store : list SessionPlan) :
  (nextSessionId store = None ↔ store = [])
  ∧ (store ≠ [] → starts_valid store →
     ∃ session, session ∈ store
       ∧ nextSessionId store = Some (s_id session)
       ∧ ∀ other, other ∈ store → session_le session other).
Proof.
  assert (store ≠ [] →
     ∃ session, session ∈ store
       ∧ nextSessionId store = Some (s_id session)
       ∧ ∀ other, other ∈ store → session_le session other) as Hne.
  { intros Hne. destruct (sort_head compareSessions) with (l := store)
      as (x & Hx & Hin & Hmin); [| |done|].
    - intros a b. rewrite !compareSessions_le. apply session_le_total.
    - intros a b c. rewrite !compareSessions_le. apply session_le_trans.
    - exists x. split; [done|]. split.
      + unfold nextSessionId. rewrite decide_False by (by destruct store).
        unfold JS.at_. rewrite decide_True by lia.
        change (Z.to_nat 0) with 0%nat. by rewrite Hx.
      + intros other Ho. by apply compareSessions_le, Hmin. }
  split; [|by intros ? _; apply Hne]. split.
  - intros Hnone. destruct store as [|s l]; [done|].
    destruct Hne as (x & _ & Hx & _); [done|]. congruence.
  - by intros ->.
Qed.

Lemma nextSessionId_least_witness :
  ∃ session, session ∈ example_store
    ∧ nextSessionId example_store = Some (s_id session)
    ∧ ∀ other, other ∈ example_store → session_le session other.
Proof.
  apply (nextSessionId_least example_store); [discriminate|].
  repeat (apply Forall_cons; split); [valid_time_at 6 0|valid_time_at 18 0|
    valid_time_at 7 0|valid_time_at 7 0|apply Forall_nil_2].
Defined.

(** ** Day grouping *)

Lemma grouped_lookup (sessions : list SessionPlan) (day : DayKey) :
  grouped sessions !! day
  = Some (JS.sort (λ a b, JS.localeCompare (s_start a) (s_start b))
            (filter (λ session, s_day session = day) sessions)).
Proof.
  unfold grouped. destruct day; simpl;
    repeat (rewrite lookup_insert_ne by done); by rewrite lookup_insert_eq.
Qed.

Lemma grouped_size (sessions : list SessionPlan) : size (grouped sessions) = 7%nat.
Proof.
  unfold grouped. simpl.
  repeat (rewrite map_size_insert_None;
          [|repeat (rewrite lookup_insert_ne by done); apply lookup_empty]).
  by rewrite map_size_empty.
Qed.

Lemma start_le_localeCompare (a b : SessionPlan) :
  JS.localeCompare (s_start a) (s_start b) ≤ 0 ↔ start_le a b.
Proof. apply localeCompare_le. Qed.

Lemma bucket_sorted (l : list SessionPlan) :
  StronglySorted start_le
    (JS.sort (λ a b, JS.localeCompare (s_start a) (s_start b)) l).
Proof.
  assert (StronglySorted (λ a b, JS.localeCompare (s_start a) (s_start b) ≤ 0)
            (JS.sort (λ a b, JS.localeCompare (s_start a) (s_start b)) l)) as Hs.
  { apply sort_sorted.
    - intros a b. rewrite !start_le_localeCompare. apply lex_le_total.
    - intros a b c. rewrite !start_le_localeCompare. apply lex_le_trans. }
  induction Hs as [|x l' _ IH Hx]; constructor; [done|].
  eapply Forall_impl; [exact Hx|]. intros y. apply start_le_localeCompare.
Qed.

Section partition.
Context {A K : Type} `{EqDecision K} (key : A → K).

Lemma concat_filter_cons (x : A) (l : list A) (keys : list K) :
  NoDup keys → key x ∈ keys →
  concat ((λ k, filter (λ y, key y = k) (x :: l)) <$> keys)
  ≡ₚ x :: concat ((λ k, filter (λ y, key y = k) l) <$> keys).
Proof.
  induction keys as [|k keys IH]; [by intros _ ?%elem_of_nil|].
  intros [Hk Hnd]%NoDup_cons Hin. rewrite !fmap_cons. cbn [concat].
  destruct (decide (key x = k)) as [Hx|Hx].
  - rewrite filter_cons_True by done.
    assert ((λ k', filter (λ y, key y = k') (x :: l)) <$> keys
            = (λ k', filter (λ y, key y = k') l) <$> keys) as ->; [|done].
    apply list_fmap_ext. intros i k' Hk'%list_elem_of_lookup_2.
    apply filter_cons_False. intros Heq. apply Hk. by rewrite <-Hx, Heq.
  - rewrite filter_cons_False by done.
    apply elem_of_cons in Hin as [?|Hin]; [done|].
    rewrite IH by done. symmetry. apply Permutation_middle.
Qed.

Lemma concat_filter_keys (l : list A) (keys : list K) :
  NoDup keys → (∀ x, key x ∈ keys) →
  concat ((λ k, filter (λ y, key y = k) l) <$> keys) ≡ₚ l.
Proof.
  intros Hnd Hall. induction l as [|x l IH].
  - clear. induction keys as [|k keys IH]; [done|].
    rewrite fmap_cons. cbn [concat]. by rewrite filter_nil.
  - by rewrite concat_filter_cons, IH.
Qed.

Lemma concat_fmap_perm (f g : K → list A) (keys : list K) :
  (∀ k, f k ≡ₚ g k) → concat (f <$> keys) ≡ₚ concat (g <$> keys).
Proof.
  intros Hfg. induction keys as [|k keys IH]; [done|].
  rewrite !fmap_cons. cbn [concat]. by rewrite Hfg, IH.
Qed.
End partition.

Lemma dayKeys_NoDup : NoDup dayKeys.
Proof. by apply (bool_decide_unpack _). Qed.

Lemma dayKeys_all (d : DayKey) : d ∈ dayKeys.
Proof. by destruct d; apply (bool_decide_unpack _). Qed.

(** C8: the grouping has exactly seven buckets, one for each day; the
    bucket of a day holds the sessions of that day, each as often as the
    store does, so that a session of the store is in the bucket of its day
    and in no other and the buckets together are the store; when the start
    times of the store are zero-padded times "HH:MM", each bucket is in
    non-decreasing lexicographic order of the start times. *)
Theorem grouped_partition (store : list SessionPlan) :
  size (grouped store) = 7%nat
  ∧ (∀ day, ∃ bucket,
       grouped store !! day = Some bucket
       ∧ bucket ≡ₚ filter (λ session, s_day session = day) store
       ∧ (starts_valid store → StronglySorted start_le bucket))
  ∧ (∀ session day bucket,
       session ∈ store → grouped store !! day = Some bucket →
       session ∈ bucket ↔ s_day session = day)
  ∧ concat ((λ day, default [] (grouped store !! day)) <$> dayKeys) ≡ₚ store.
Proof.
  split_and!.
  - apply grouped_size.
  - intros day. eexists. split; [apply grouped_lookup|]. split.
    + apply sort_perm.
    + intros _. apply bucket_sorted.
  - intros session day bucket Hin. rewrite grouped_lookup. intros [= <-].
    rewrite sort_perm, list_elem_of_filter. by split; [intros [? _]|].
  - rewrite <-(concat_filter_keys s_day store dayKeys)
      by auto using dayKeys_NoDup, dayKeys_all.
    apply concat_fmap_perm. intros day. rewrite grouped_lookup. apply sort_perm.
Qed.


Lemma grouped_partition_witness :
  ∃ bucket, grouped example_store !! Monday = Some bucket
    ∧ bucket ≡ₚ filter (λ session, s_day session = Monday) example_store
    ∧ StronglySorted start_le bucket.
Proof.
  destruct (grouped_partition example_store) as (_ & H & _).
  destruct (H Monday) as (bucket & Hb & Hp & Hs). exists bucket.
  split; [exact Hb|]. split; [exact Hp|]. apply Hs.
  repeat (apply Forall_cons; split); [valid_time_at 6 0|valid_time_at 18 0|
    valid_time_at 7 0|valid_time_at 7 0|apply Forall_nil_2].
Defined.

(** C1: for a valid zero-padded time "HH:MM" and the offset of either
    direction, +60 or -60, [adjustTime] returns the zero-padded time whose
    minutes since midnight are ((hours*60 + minutes + offset) % 1440 + 1440)
    % 1440, which is the offset time modulo a day of 1440 minutes. *)
Theorem adjustTime_shift (h m : Z) (direction : Direction) :
  0 ≤ h < 24 → 0 ≤ m < 60 →
  let offset := offsetMinutes direction in
  let n := Z.rem (Z.rem (h * 60 + m + offset) 1440 + 1440) 1440 in
  adjustTime offset (time_text h m) = time_text (n `div` 60) (n `mod` 60)
  ∧ 0 ≤ n `div` 60 < 24 ∧ 0 ≤ n `mod` 60 < 60
  ∧ n `div` 60 * 60 + n `mod` 60 = n
  ∧ n = (h * 60 + m + offset) `mod` 1440
  ∧ valid_time (adjustTime offset (time_text h m)).
Proof.
  intros Hh Hm offset n. change n with (shifted h m offset).
  pose proof (shifted_range h m offset) as Hn.
  assert (0 ≤ shifted h m offset `div` 60 < 24
          ∧ 0 ≤ shifted h m offset `mod` 60 < 60
          ∧ shifted h m offset `div` 60 * 60 + shifted h m offset `mod` 60
            = shifted h m offset) as (Hq & Hr & Hqr).
  { Z.to_euclidean_division_equations. lia. }
  assert (adjustTime offset (time_text h m)
          = time_text (shifted h m offset `div` 60) (shifted h m offset `mod` 60)) as Ha.
  { rewrite adjustTime_time_text by lia. by rewrite Z.rem_mod_nonneg by lia. }
  split; [exact Ha|]. split; [exact Hq|]. split; [exact Hr|].
  split; [exact Hqr|]. split; [apply shifted_mod|].
  rewrite Ha. by eexists _, _.
Qed.

Lemma adjustTime_shift_witness :
  adjustTime 60 "23:30" = "00:30" ∧ adjustTime (-60) "00:20" = "23:20".
Proof.
  split.
  - apply (adjustTime_shift 23 30 Next); lia.
  - apply (adjustTime_shift 0 20 Previous); lia.
Defined.

(** ** Set counts *)

Lemma at_elem_of {A} (l : list A) (i : Z) (x : A) : JS.at_ l i = Some x → x ∈ l.
Proof. unfold JS.at_. case_decide; [|done]. apply list_elem_of_lookup_2. Qed.


Lemma Forall_kept {A} (P Q : A → Prop) `{∀ x, Decision (Q x)} (l : list A) :
  Forall P l → Forall P (filter Q l).
Proof.
  rewrite !Forall_forall. intros Hl x [_ Hx]%list_elem_of_filter. by apply Hl.
Qed.

(** C5: the set count of a stored exercise is meant to be a positive
    integer, and the sets field declares the range from 1 to 12; yet
    nothing holds a value to that range.  After the sets input of a draft
    hands over 0 (the field holds 0, or is empty) and the draft gets a
    name, Add Session stores an exercise whose set count is 0, below the
    least value that the field declares. *)
Lemma sets_zero_reachable :
  ∃ st session exercise,
    run [ExerciseInput (uuid_of 11) (SetsInput (Some 0));
         ExerciseInput (uuid_of 11) (NameInput "Plank"); AddSessionClick]
      initial_state = Some st
    ∧ session ∈ sessions st ∧ exercise ∈ s_exercises session
    ∧ e_sets exercise = 0 ∧ ¬ 0 < e_sets exercise
    ∧ ¬ sets_min ≤ e_sets exercise ≤ sets_max.
Proof.
  eexists _, _, _. split; [reflexivity|]. split_and!.
  - vm_compute. apply list_elem_of_further, list_elem_of_here.
  - apply list_elem_of_here.
  - reflexivity.
  - simpl. lia.
  - unfold sets_min. simpl. lia.
Qed.

(** ** Identifiers of the store are unique *)

Lemma uuid_of_inj (j k : nat) : uuid_of j = uuid_of k → j = k.
Proof. unfold uuid_of. intros H%(inj (String.app _)). by apply (inj pretty). Qed.

Lemma ids_fresh_append (st : State) (added : SessionPlan) (j n : nat)
    (form : SessionForm) (drafts : list ExercisePlan) :
  ids_fresh st → s_id added = uuid_of j → (supply st ≤ j < n)%nat →
  ids_fresh {| sessions := sessions st ++ [added]; sessionForm := form;
               exerciseDrafts := drafts; supply := n |}.
Proof.
  intros [Hnd Hb] Hid Hj. split; simpl.
  - unfold session_ids in *. rewrite fmap_app. apply NoDup_app. split_and!; [done| |].
    + intros x (s & -> & Hs)%list_elem_of_fmap ?%list_elem_of_singleton.
      rewrite Forall_forall in Hb. destruct (Hb s Hs) as (k & Hk & Hsk).
      assert (k = j) by (apply uuid_of_inj; congruence). lia.
    + apply NoDup_singleton.
  - apply Forall_app. split.
    + eapply Forall_impl; [exact Hb|]. intros s (k & ? & ?). exists k. split; [lia|done].
    + apply Forall_singleton. exists j. split; [lia|done].
Qed.

Lemma ids_fresh_filter (st : State) (P : SessionPlan → Prop) `{∀ x, Decision (P x)} :
  ids_fresh st →
  ids_fresh {| sessions := filter P (sessions st); sessionForm := sessionForm st;
               exerciseDrafts := exerciseDrafts st; supply := supply st |}.
Proof.
  intros [Hnd Hb]. split; simpl; [|by apply Forall_kept].
  eapply sublist_NoDup; [exact Hnd|]. apply fmap_sublist, sublist_filter.
Qed.

Lemma step_ids_fresh (ev : Event) (st st' : State) :
  step ev st = Some st' → ids_fresh st → ids_fresh st'.
Proof.
  intros Hstep Hst. destruct ev; simpl in Hstep.
  - injection Hstep as <-. done.
  - injection Hstep as <-. done.
  - injection Hstep as <-. unfold exec, addExerciseDraft, mbind, M_bind.
    rewrite uuid_run. destruct Hst as [? Hb]. split; [done|]. simpl.
    eapply Forall_impl; [exact Hb|]. intros s (k & ? & ?). exists k. split; [lia|done].
  - injection Hstep as <-. done.
  - injection Hstep as <-. rewrite addSession_run. cbv zeta.
    case_decide; (eapply ids_fresh_append; [done|done|lia]).
  - rewrite applyTemplateToDay_run in Hstep.
    destruct (JS.at_ templates templateIndex) as [template|]; [|done].
    injection Hstep as <-. eapply ids_fresh_append; [done|done|lia].
  - injection Hstep as <-. by apply ids_fresh_filter.
  - injection Hstep as <-. rewrite duplicateSession_run.
    destruct (JS.find _ _) as [target|]; [|done].
    eapply ids_fresh_append; [done|done|lia].
  - injection Hstep as <-. by apply ids_fresh_filter.
Qed.

(** In every state that the user can reach the identifiers of the sessions
    are distinct. *)
Lemma reachable_ids_unique (st : State) :
  reachable st → NoDup (session_ids (sessions st)).
Proof.
  intros [evs Hrun]. cut (ids_fresh st); [by intros []|].
  revert Hrun. assert (ids_fresh initial_state) as Hinit.
  { split; [apply NoDup_singleton|]. apply Forall_singleton.
    exists 10%nat. split; [simpl; lia|done]. }
  revert Hinit. generalize initial_state.
  induction evs as [|ev evs IH]; intros st0 Hst0; simpl.
  - by intros [= <-].
  - destruct (step ev st0) as [st1|] eqn:Hstep; [|done]. simpl.
    apply IH. by eapply step_ids_fresh.
Qed.

(** * Further properties *)

(** ** Time shift, there and back, and on other texts *)

Lemma adjustTime_back (h m offset : Z) :
  0 ≤ h < 24 → 0 ≤ m < 60 →
  adjustTime (- offset) (adjustTime offset (time_text h m)) = time_text h m.
Proof.
  intros Hh Hm. rewrite adjustTime_time_text by lia.
  pose proof (shifted_range h m offset) as Hn.
  set (n := shifted h m offset) in *.
  assert (0 ≤ n `div` 60 < 100 ∧ 0 ≤ Z.rem n 60 < 100) as [Hq Hr]
    by (Z.to_euclidean_division_equations; lia).
  rewrite adjustTime_time_text by done.
  assert (shifted (n `div` 60) (Z.rem n 60) (- offset) = h * 60 + m) as ->.
  { rewrite shifted_mod. subst n. rewrite shifted_mod.
    Z.to_euclidean_division_equations. lia. }
  f_equal; [|f_equal]; Z.to_euclidean_division_equations; lia.
Qed.

(** X1: shifting a valid time by an hour in one direction and then by an
    hour in the other gives the time back, across midnight too. *)
Theorem adjustTime_round_trip (h m : Z) (direction : Direction) :
  0 ≤ h < 24 → 0 ≤ m < 60 →
  adjustTime (- offsetMinutes direction)
    (adjustTime (offsetMinutes direction) (time_text h m))
  = time_text h m.
Proof. intros. by apply adjustTime_back. Qed.

Lemma adjustTime_round_trip_witness :
  adjustTime (-60) (adjustTime 60 "23:30") = "23:30"
  ∧ adjustTime 60 (adjustTime (-60) "00:20") = "00:20".
Proof.
  split.
  - apply (adjustTime_round_trip 23 30 Next); lia.
  - apply (adjustTime_round_trip 0 20 Previous); lia.
Defined.

Lemma split_no_colon (s : string) : no_colon s → JS.split ":" s = [s].
Proof.
  induction s as [|a s IH]; [done|]. intros [Ha Hs]. cbn [JS.split].
  rewrite decide_False by done. by rewrite IH.
Qed.


Lemma adjustTime_unparsed (offset : Z) (time : string) :
  JS.parseInt (JS.split ":" time !! 0%nat) = None
  ∨ JS.parseInt (JS.split ":" time !! 1%nat) = None →
  adjustTime offset time = "NaN:NaN".
Proof.
  unfold adjustTime. intros [->| ->]; [done|].
  by destruct (JS.parseInt (JS.split ":" time !! 0%nat)).
Qed.



















(** X3: a text without a colon, the empty text of a cleared time field
    among them, is shifted to "NaN:NaN". *)
Theorem adjustTime_no_colon (offset : Z) (time : string) :
  no_colon time → adjustTime offset time = "NaN:NaN".
Proof.
  intros Hn. apply adjustTime_unparsed. right. by rewrite split_no_colon.
Qed.

Lemma adjustTime_no_colon_witness :
  adjustTime 60 "" = "NaN:NaN" ∧ adjustTime (-60) "0730" = "NaN:NaN".
Proof.
  split.
  - apply (adjustTime_no_colon 60 ""). exact I.
  - apply (adjustTime_no_colon (-60) "0730"). repeat split; discriminate.
Defined.

(** ** Focus summary *)

Lemma focusSummary_snoc (l : list SessionPlan) (session : SessionPlan) :
  focusSummary (l ++ [session])
  = if decide (s_focus session = "__proto__") then focusSummary l
    else <[s_focus session := tally_next (focusSummary l) (s_focus session)]>
           (focusSummary l).
Proof. unfold focusSummary. by rewrite foldl_app. Qed.

Lemma focus_count_snoc (label : string) (l : list SessionPlan) (session : SessionPlan) :
  focus_count label (l ++ [session])
  = focus_count label l + (if decide (s_focus session = label) then 1 else 0).
Proof.
  unfold focus_count. rewrite filter_app, length_app.
  case_decide; [rewrite filter_cons_True by done|rewrite filter_cons_False by done];
    simpl; lia.
Qed.

Lemma focus_count_nonneg (label : string) (l : list SessionPlan) :
  0 ≤ focus_count label l.
Proof. unfold focus_count. lia. Qed.

Lemma focus_count_pos (label : string) (l : list SessionPlan) :
  0 < focus_count label l ↔ ∃ session, session ∈ l ∧ s_focus session = label.
Proof.
  unfold focus_count. split.
  - intros Hpos. destruct (filter _ l) as [|s l'] eqn:E; [simpl in Hpos; lia|].
    assert (s ∈ filter (λ session, s_focus session = label) l) as Hin
      by (rewrite E; apply list_elem_of_here).
    apply list_elem_of_filter in Hin as [? ?]. by exists s.
  - intros (s & Hs & Hf).
    assert (s ∈ filter (λ session, s_focus session = label) l) as Hin
      by (by apply list_elem_of_filter).
    destruct (filter _ l); [by apply elem_of_nil in Hin|simpl; lia].
Qed.

(** X4: for a focus label that is not the name of an inherited property,
    the summary holds the number of sessions with that label, and no entry
    when there is none. *)
Theorem focusSummary_count (store : list SessionPlan) (label : string) :
  label ∉ inherited_names →
  focusSummary store !! label
  = if decide (focus_count label store = 0) then None
    else Some (Count (focus_count label store)).
Proof.
  intros Hlabel. induction store as [|session l IH] using rev_ind; [done|].
  assert (label ≠ "__proto__") as Hproto.
  { intros ->. apply Hlabel. unfold inherited_names. set_solver. }
  rewrite focusSummary_snoc, focus_count_snoc.
  pose proof (focus_count_nonneg label l) as Hnn.
  destruct (decide (s_focus session = label)) as [Hs|Hs].
  - rewrite decide_False by congruence. rewrite Hs, lookup_insert_eq.
    unfold tally_next. rewrite IH. rewrite (decide_False (P := _ + 1 = 0)) by lia.
    destruct (decide (focus_count label l = 0)) as [Hz|Hz]; [|done].
    destruct (decide (label ∈ inherited_names)); [done|]. by rewrite Hz.
  - replace (focus_count label l + 0) with (focus_count label l) by lia.
    destruct (decide (s_focus session = "__proto__")); [done|].
    by rewrite lookup_insert_ne.
Qed.

Lemma focusSummary_count_witness :
  focusSummary (sessions initial_state) !! "Lower Body Strength" = Some (Count 1)
  ∧ focusSummary (sessions initial_state) !! "Recovery" = None.
Proof.
  split.
  - apply (focusSummary_count (sessions initial_state) "Lower Body Strength").
    apply (bool_decide_unpack _). vm_compute. exact I.
  - apply (focusSummary_count (sessions initial_state) "Recovery").
    apply (bool_decide_unpack _). vm_compute. exact I.
Defined.

Lemma focusSummary_is_Some (store : list SessionPlan) (label : string) :
  is_Some (focusSummary store !! label)
  ↔ label ≠ "__proto__" ∧ ∃ session, session ∈ store ∧ s_focus session = label.
Proof.
  induction store as [|session l IH] using rev_ind.
  - unfold focusSummary. simpl. rewrite lookup_empty. split; [by intros [? ?]|].
    by intros (_ & s & ?%elem_of_nil & _).
  - rewrite focusSummary_snoc. case_decide as Hp.
    + rewrite IH. split.
      * intros (? & s & ? & ?). split; [done|]. exists s. split; [|done].
        apply elem_of_app. by left.
      * intros (? & s & [?| ->%list_elem_of_singleton]%elem_of_app & Hs);
          [by split; [|exists s]|congruence].
    + destruct (decide (s_focus session = label)) as [Hs|Hs].
      * rewrite Hs, lookup_insert_eq. split; [|by eexists].
        intros _. split; [congruence|]. exists session. split; [|done].
        apply elem_of_app. right. apply list_elem_of_here.
      * rewrite lookup_insert_ne by done. rewrite IH. split.
        -- intros (? & s & ? & ?). split; [done|]. exists s. split; [|done].
           apply elem_of_app. by left.
        -- intros (? & s & [?| ->%list_elem_of_singleton]%elem_of_app & ?);
             [by split; [|exists s]|done].
Qed.

(** X5: the labels of the summary, whose number the page shows as the
    unique focuses, are the focus labels of the store, the label
    "__proto__" apart, which never gets an entry. *)
Theorem focusSummary_keys (store : list SessionPlan) (label : string) :
  is_Some (focusSummary store !! label)
  ↔ label ≠ "__proto__" ∧ ∃ session, session ∈ store ∧ s_focus session = label.
Proof. apply focusSummary_is_Some. Qed.

Lemma focusSummary_keys_witness :
  is_Some (focusSummary (sessions initial_state) !! "Lower Body Strength").
Proof.
  apply (focusSummary_keys (sessions initial_state) "Lower Body Strength").
  split; [discriminate|]. eexists. split; [apply list_elem_of_here|reflexivity].
Defined.

(** X6: for a focus label that names an inherited property, other than
    "__proto__", the entry of the summary is a text and not a count, from
    the first session with that label on. *)
Theorem focusSummary_inherited (store : list SessionPlan) (label : string) :
  label ∈ inherited_names → label ≠ "__proto__" →
  (∃ session, session ∈ store ∧ s_focus session = label) →
  focusSummary store !! label = Some Text.
Proof.
  intros Hin Hp. induction store as [|session l IH] using rev_ind.
  { by intros (s & ?%elem_of_nil & _). }
  intros Hex. rewrite focusSummary_snoc.
  destruct (decide (s_focus session = label)) as [Hs|Hs].
  - rewrite decide_False by congruence. rewrite Hs, lookup_insert_eq.
    unfold tally_next. destruct (focusSummary l !! label) as [[n|]|] eqn:E.
    + assert (is_Some (focusSummary l !! label)) as Hsome by (rewrite E; by eexists).
      apply focusSummary_is_Some in Hsome as [_ Hl]. specialize (IH Hl). congruence.
    + done.
    + by rewrite decide_True.
  - assert (∃ s, s ∈ l ∧ s_focus s = label) as Hl.
    { destruct Hex as (s & [?| ->%list_elem_of_singleton]%elem_of_app & ?);
        [by exists s|done]. }
    case_decide; [by apply IH|]. rewrite lookup_insert_ne by done. by apply IH.
Qed.

Lemma focusSummary_inherited_witness :
  focusSummary
    [session_of_form (uuid_of 10) (update_form (SetFocus "toString") initialSessionForm)
       defaultExercises] !! "toString"
  = Some Text.
Proof.
  apply (focusSummary_inherited _ "toString").
  - apply (bool_decide_unpack _). vm_compute. exact I.
  - discriminate.
  - eexists. split; [apply list_elem_of_here|reflexivity].
Defined.

(** ** Day load rating *)

Lemma score_from (acc : Z) (l : list SessionPlan) :
  foldl (λ acc session, acc + intensityScore (s_intensity session)) acc l
  = acc + score l.
Proof.
  unfold score. revert acc. induction l as [|s l IH]; intros acc; simpl; [lia|].
  rewrite IH, (IH (0 + _)). lia.
Qed.

Lemma score_cons (session : SessionPlan) (l : list SessionPlan) :
  score (session :: l) = intensityScore (s_intensity session) + score l.
Proof. unfold score at 1. simpl. by rewrite score_from. Qed.

Lemma score_perm (l k : list SessionPlan) : l ≡ₚ k → score l = score k.
Proof.
  induction 1 as [|x l k _ IH|x y l|l k m _ IH1 _ IH2];
    rewrite ?score_cons; [done|lia|lia|congruence].
Qed.

Lemma score_bounds (l : list SessionPlan) :
  Z.of_nat (length l) ≤ score l ≤ 3 * Z.of_nat (length l).
Proof.
  induction l as [|s l IH]; [done|]. rewrite score_cons. cbn [length].
  destruct (s_intensity s); simpl; lia.
Qed.

Lemma dayRating_score (store : list SessionPlan) (day : DayKey) :
  dayRating store day
  = Some (rating (score (filter (λ session, s_day session = day) store))).
Proof.
  unfold dayRating. rewrite grouped_lookup. simpl. do 2 f_equal.
  apply score_perm, sort_perm.
Qed.

Lemma score_weighted (l : list SessionPlan) : score l = weighted_load l.
Proof.
  unfold weighted_load, sessions_of_intensity.
  induction l as [|s l IH]; [done|]. rewrite score_cons, IH.
  rewrite !filter_cons. destruct (s_intensity s); simpl;
    repeat (destruct (decide _); try done); cbn [length]; lia.
Qed.

(** X7: the overview rates every day, by the sessions of the store on that
    day whatever their order.  With three counted for every intense
    session of the day, two for every moderate one and one for every light
    one, the rating is "Recovery" exactly when the day has no session,
    "Load" exactly when the count is 4 or more, and "Build" exactly when it
    is 1, 2 or 3. *)
Theorem dayRating_cases (store : list SessionPlan) (day : DayKey) :
  let onDay := filter (λ session, s_day session = day) store in
  let load := weighted_load onDay in
  ∃ r, dayRating store day = Some r
       ∧ (r = Recovery ↔ onDay = [])
       ∧ (r = Load ↔ 4 ≤ load)
       ∧ (r = Build ↔ 1 ≤ load ≤ 3).
Proof.
  intros onDay load. eexists. split; [apply dayRating_score|]. fold onDay.
  pose proof (score_bounds onDay) as Hb.
  assert (score onDay = load) as Hload by apply score_weighted.
  rewrite Hload in Hb |- *. unfold rating.
  destruct (decide (load = 0)) as [Hz|Hz].
  - split_and!; split; try done; try lia.
    intros _. destruct onDay; [done|simpl in Hb; lia].
  - assert (onDay ≠ []).
    { intros Heq. apply Hz. subst load. by rewrite Heq. }
    case_decide; split_and!; split; try done; lia.
Qed.

Lemma dayRating_cases_witness :
  dayRating
    [ session_of_form "a" initialSessionForm [];
      session_of_form "b" (update_form (SetIntensity Light) initialSessionForm) [];
      session_of_form "c" (update_form (SetDay Friday) initialSessionForm) [] ]
    Monday = Some Load
  ∧ dayRating
      [ session_of_form "a" (update_form (SetIntensity Moderate) initialSessionForm) [];
        session_of_form "b" (update_form (SetIntensity Light) initialSessionForm) [] ]
      Monday = Some Build.
Proof.
  split.
  - destruct (dayRating_cases
                [ session_of_form "a" initialSessionForm [];
                  session_of_form "b" (update_form (SetIntensity Light) initialSessionForm) [];
                  session_of_form "c" (update_form (SetDay Friday) initialSessionForm) [] ]
                Monday) as (r & Hr & _ & Hl & _).
    rewrite Hr. f_equal. apply Hl. vm_compute. discriminate.
  - destruct (dayRating_cases
                [ session_of_form "a" (update_form (SetIntensity Moderate) initialSessionForm) [];
                  session_of_form "b" (update_form (SetIntensity Light) initialSessionForm) [] ]
                Monday) as (r & Hr & _ & _ & Hb).
    rewrite Hr. f_equal. apply Hb. vm_compute. split; discriminate.
Defined.

(** X8: a day with one session is rated "Build" and a day with four or
    more sessions "Load"; a day rated "Load" has at least two sessions and
    a day rated "Build" at most three. *)
Theorem dayRating_by_count (store : list SessionPlan) (day : DayKey) (r : Rating) :
  dayRating store day = Some r →
  let n := length (filter (λ session, s_day session = day) store) in
  (n = 1%nat → r = Build) ∧ ((4 ≤ n)%nat → r = Load)
  ∧ (r = Load → (2 ≤ n)%nat) ∧ (r = Build → (1 ≤ n ≤ 3)%nat).
Proof.
  rewrite dayRating_score. intros [= <-] n.
  pose proof (score_bounds (filter (λ session, s_day session = day) store)) as Hb.
  fold n in Hb. unfold rating. repeat case_decide; split_and!; try done; lia.
Qed.

Lemma dayRating_by_count_witness :
  dayRating (sessions initial_state) Monday = Some Build.
Proof.
  destruct (dayRating (sessions initial_state) Monday) as [r|] eqn:E.
  - f_equal.
    apply (dayRating_by_count (sessions initial_state) Monday r E). reflexivity.
  - rewrite dayRating_score in E. discriminate.
Defined.

(** ** Clear Day and Remove Session, what they take and what they leave *)

Lemma sort_nil_inv {A} (cmp : A → A → Z) (l : list A) : l = [] → JS.sort cmp l = [].
Proof. by intros ->. Qed.

Lemma filter_filter_other {A} (P Q : A → Prop) `{∀ x, Decision (P x)}
    `{∀ x, Decision (Q x)} (l : list A) :
  (∀ x, P x → Q x) → filter P (filter Q l) = filter P l.
Proof.
  intros HPQ. induction l as [|x l IH]; [done|].
  destruct (decide (Q x)) as [HQ|HQ].
  - rewrite (filter_cons_True Q) by done. destruct (decide (P x)).
    + rewrite !(filter_cons_True P) by done. by rewrite IH.
    + rewrite !(filter_cons_False P) by done. done.
  - rewrite (filter_cons_False Q) by done.
    rewrite (filter_cons_False P) by (intros ?; by apply HQ, HPQ). done.
Qed.

Lemma filter_none {A} (P : A → Prop) `{∀ x, Decision (P x)} (l : list A) :
  Forall (λ x, ¬ P x) l → filter P l = [].
Proof. induction 1; [done|]. by rewrite filter_cons_False. Qed.

(** X9: Clear Day takes all the sessions of the day and only these: the
    sessions left are those of the other days, the bucket of the day is
    empty, the buckets of the other days are what they were, and clearing
    the day again changes nothing. *)
Theorem clearDay_effect (st : State) (day : DayKey) :
  let st' := exec (clearDay day) st in
  (∀ session,
     session ∈ sessions st' ↔ session ∈ sessions st ∧ s_day session ≠ day)
  ∧ grouped (sessions st') !! day = Some []
  ∧ (∀ other, other ≠ day →
       grouped (sessions st') !! other = grouped (sessions st) !! other)
  ∧ exec (clearDay day) st' = st'.
Proof.
  intros st'. subst st'. unfold exec, clearDay, setSessions. simpl. split_and!.
  - intros session. rewrite list_elem_of_filter. tauto.
  - rewrite grouped_lookup. f_equal. apply sort_nil_inv, filter_none.
    apply Forall_forall. by intros x [? _]%list_elem_of_filter.
  - intros other Hother. rewrite !grouped_lookup. do 2 f_equal.
    apply filter_filter_other. intros x. congruence.
  - f_equal. apply filter_filter_other. done.
Qed.

Lemma clearDay_effect_witness :
  grouped (sessions (exec (clearDay Monday) initial_state)) !! Tuesday
  = grouped (sessions initial_state) !! Tuesday.
Proof.
  apply (clearDay_effect initial_state Monday). discriminate.
Defined.

(** X10: after Remove Session no session of the store has the identifier,
    whether identifiers are unique or not; the sessions with another
    identifier all stay, and removing the identifier again changes nothing. *)
Theorem removeSession_effect (st : State) (sessionId : string) :
  let st' := exec (removeSession sessionId) st in
  (sessionId ∉ session_ids (sessions st'))
  ∧ (∀ session,
       session ∈ sessions st' ↔ session ∈ sessions st ∧ s_id session ≠ sessionId)
  ∧ exec (removeSession sessionId) st' = st'.
Proof.
  intros st'. subst st'. unfold exec, removeSession, setSessions. simpl. split_and!.
  - apply id_absent, Forall_forall. by intros x [? _]%list_elem_of_filter.
  - intros session. rewrite list_elem_of_filter. tauto.
  - f_equal. apply filter_filter_other. done.
Qed.

Lemma removeSession_effect_witness :
  session_of_form (uuid_of 10) initialSessionForm defaultExercises
    ∈ sessions (exec (removeSession "absent") initial_state).
Proof.
  apply (removeSession_effect initial_state "absent").
  split; [apply list_elem_of_here|discriminate].
Defined.

(** ** Edits of the form and of the drafts *)

(** X11: editing the session form, editing a draft, adding a draft row and
    removing one never change the session store, and none of the session
    operations changes the session form. *)
Theorem edits_frame (ev : Event) (st st' : State) :
  step ev st = Some st' →
  (¬ creates_session ev → (∀ id, ev ≠ RemoveSessionClick id) →
   (∀ day, ev ≠ ClearDayClick day) → sessions st' = sessions st)
  ∧ ((∀ kv, ev ≠ SessionInput kv) → sessionForm st' = sessionForm st).
Proof.
  intros Hstep. split.
  - intros Hc Hr Hd. destruct ev; simpl in Hc; try done.
    + by injection Hstep as <-.
    + by injection Hstep as <-.
    + injection Hstep as <-. unfold exec, addExerciseDraft, mbind, M_bind.
      by rewrite uuid_run.
    + by injection Hstep as <-.
    + by destruct (Hd day).
    + by destruct (Hr sessionId).
  - intros Hk. destruct ev; simpl in Hstep.
    + by destruct (Hk kv).
    + by injection Hstep as <-.
    + injection Hstep as <-. unfold exec, addExerciseDraft, mbind, M_bind.
      by rewrite uuid_run.
    + by injection Hstep as <-.
    + injection Hstep as <-. rewrite addSession_run. cbv zeta. by case_decide.
    + rewrite applyTemplateToDay_run in Hstep.
      destruct (JS.at_ templates templateIndex); [|done]. by injection Hstep as <-.
    + by injection Hstep as <-.
    + injection Hstep as <-. rewrite duplicateSession_run. by destruct (JS.find _ _).
    + by injection Hstep as <-.
Qed.

Lemma edits_frame_witness :
  sessions (exec (handleExerciseChange (uuid_of 11) (SetExName "Plank")) initial_state)
  = sessions initial_state.
Proof.
  apply (edits_frame (ExerciseInput (uuid_of 11) (NameInput "Plank")) initial_state);
    [reflexivity|intros []|discriminate|discriminate].
Defined.

(** X12: an edit of a draft changes the draft with the given identifier
    and no other: the rows keep their number, order and identifiers, every
    row with another identifier is as it was, a row with the identifier
    takes the value typed in the field of the input and keeps its other
    fields, and for an identifier that no row has nothing changes. *)
Theorem handleExerciseChange_effect (st : State) (id : string) (kv : ExerciseField) :
  let st' := exec (handleExerciseChange id kv) st in
  e_id <$> exerciseDrafts st' = e_id <$> exerciseDrafts st
  ∧ (∀ i exercise, exerciseDrafts st !! i = Some exercise →
       ∃ exercise', exerciseDrafts st' !! i = Some exercise'
         ∧ (e_id exercise ≠ id → exercise' = exercise)
         ∧ (e_id exercise = id → edited kv exercise exercise'))
  ∧ (id ∉ e_id <$> exerciseDrafts st → st' = st).
Proof.
  intros st'. subst st'. unfold exec, handleExerciseChange, setExerciseDrafts. simpl.
  split_and!.
  - rewrite <-list_fmap_compose. apply list_fmap_ext. intros i x _. simpl.
    case_decide; [|done]. by destruct kv.
  - intros i exercise Hi. rewrite list_lookup_fmap, Hi. simpl.
    eexists. split; [reflexivity|]. split; intros Hid.
    + by rewrite decide_False.
    + rewrite decide_True by done. unfold edited. by destruct kv.
  - intros Hn. destruct st as [store form drafts n]. simpl in *. f_equal.
    apply list_eq. intros i. rewrite list_lookup_fmap.
    destruct (drafts !! i) as [x|] eqn:Hx; [|done]. simpl. f_equal.
    case_decide as Hid; [|done]. destruct Hn. apply list_elem_of_fmap.
    exists x. split; [done|]. by eapply list_elem_of_lookup_2.
Qed.

Lemma handleExerciseChange_effect_witness :
  (∃ row,
     exerciseDrafts
       (exec (handleExerciseChange (uuid_of 11) (SetExName "Plank")) initial_state)
     !! 0%nat = Some row
     ∧ e_id row = uuid_of 11 ∧ e_name row = "Plank" ∧ e_focus row = ""
     ∧ e_sets row = 3 ∧ e_reps row = "8-12" ∧ e_notes row = "")
  ∧ exec (handleExerciseChange "absent" (SetExSets 9)) initial_state = initial_state.
Proof.
  split.
  - destruct (handleExerciseChange_effect initial_state (uuid_of 11) (SetExName "Plank"))
      as (_ & Hrow & _).
    destruct (Hrow 0%nat _ eq_refl) as (row & Hr & _ & Hed).
    exists row. split; [exact Hr|]. exact (Hed eq_refl).
  - apply (handleExerciseChange_effect initial_state "absent" (SetExSets 9)).
    vm_compute. intros H. inversion H as [|? ? ? H']; inversion H'.
Defined.

(** ** What Add Session, Apply Template and Duplicate Session put in the store *)

Lemma filter_named (l : list ExercisePlan) :
  filter (λ exercise, (0 < String.length (JS.trim (e_name exercise)))%nat) l
  = filter (λ exercise, ¬ blank (e_name exercise)) l.
Proof.
  apply list_filter_iff. intros x. rewrite <-trim_empty.
  destruct (JS.trim (e_name x)); simpl; split; (done || lia).
Qed.

Lemma fresh_copies_prescription (n : nat) (l : list ExercisePlan) :
  prescription <$> fresh_copies n l = prescription <$> l.
Proof.
  apply list_eq. intros i. unfold fresh_copies.
  rewrite !list_lookup_fmap, list_lookup_imap. by destruct (l !! i).
Qed.

Lemma fresh_copies_ids (n : nat) (l : list ExercisePlan) :
  e_id <$> fresh_copies n l = (λ i, uuid_of (n + i)) <$> seq 0 (length l).
Proof.
  apply list_eq. intros i. unfold fresh_copies.
  rewrite !list_lookup_fmap, list_lookup_imap.
  destruct (l !! i) as [x|] eqn:E; simpl.
  - rewrite lookup_seq_lt by (by eapply lookup_lt_Some). done.
  - rewrite lookup_seq_ge by (by apply lookup_ge_None). done.
Qed.

Lemma fresh_copies_NoDup (n : nat) (l : list ExercisePlan) :
  NoDup (e_id <$> fresh_copies n l).
Proof.
  rewrite fresh_copies_ids. apply NoDup_fmap_2; [|apply NoDup_seq].
  intros i j Hij. apply uuid_of_inj in Hij. lia.
Qed.

Lemma at_Some_range {A} (l : list A) (i : Z) :
  is_Some (JS.at_ l i) ↔ 0 ≤ i < Z.of_nat (length l).
Proof.
  unfold JS.at_. case_decide.
  - rewrite lookup_lt_is_Some. lia.
  - split; [by intros [? ?]|lia].
Qed.

(** X15: on the page, the day selector of each of the three template cards
    never throws: the placeholder option leaves the state as it is, and a
    day appends one session on that day. *)
Theorem templateSelect_result (st : State) (value : option DayKey) (index : Z) :
  0 ≤ index < 3 →
  ∃ st', templateSelect value index st = Some st'
    ∧ match value with
      | None => st' = st
      | Some day => ∃ added, sessions st' = sessions st ++ [added] ∧ s_day added = day
      end.
Proof.
  intros [template Ht]%at_templates. destruct value as [day|]; simpl; [|by eexists].
  rewrite applyTemplateToDay_run, Ht. simpl. eexists. split; [done|]. by eexists.
Qed.

Lemma templateSelect_result_witness :
  ∃ st', templateSelect None 1 initial_state = Some st' ∧ st' = initial_state.
Proof.
  apply (templateSelect_result initial_state None 1). lia.
Defined.

(** ** What holds in every state that the page can reach *)

Lemma run_invariant (P : State → Prop) :
  (∀ ev st st', step ev st = Some st' → P st → P st') →
  ∀ evs st0 st, P st0 → run evs st0 = Some st → P st.
Proof.
  intros Hstep evs. induction evs as [|ev evs IH]; intros st0 st H0; simpl.
  - by intros [= <-].
  - destruct (step ev st0) as [st1|] eqn:E; [|done]. simpl. apply IH. by eapply Hstep.
Qed.

Lemma drafts_fresh_more (st : State) (n : nat) (store : list SessionPlan)
    (form : SessionForm) :
  drafts_fresh st → (supply st ≤ n)%nat →
  drafts_fresh {| sessions := store; sessionForm := form;
                  exerciseDrafts := exerciseDrafts st; supply := n |}.
Proof.
  intros [Hnd Hb] Hn. split; [done|]. simpl.
  eapply Forall_impl; [exact Hb|]. intros x (k & ? & ?). exists k. split; [lia|done].
Qed.

Lemma drafts_fresh_one (reps : string) (k n : nat) (store : list SessionPlan)
    (form : SessionForm) :
  (k < n)%nat →
  drafts_fresh {| sessions := store; sessionForm := form;
                  exerciseDrafts := [blank_draft (uuid_of k) reps]; supply := n |}.
Proof.
  intros Hk. split; simpl; [apply NoDup_singleton|]. apply Forall_singleton. by exists k.
Qed.

Lemma update_exercise_id (kv : ExerciseField) (exercise : ExercisePlan) :
  e_id (update_exercise kv exercise) = e_id exercise.
Proof. by destruct kv. Qed.

Lemma edited_ids (id : string) (kv : ExerciseField) (l : list ExercisePlan) :
  e_id <$> ((λ exercise, if decide (e_id exercise = id)
                         then update_exercise kv exercise else exercise) <$> l)
  = e_id <$> l.
Proof.
  rewrite <-list_fmap_compose. apply list_fmap_ext. intros i x _. simpl.
  case_decide; [apply update_exercise_id|done].
Qed.

Lemma step_drafts_fresh (ev : Event) (st st' : State) :
  step ev st = Some st' → drafts_fresh st → drafts_fresh st'.
Proof.
  intros Hstep Hst. destruct ev; simpl in Hstep.
  - by injection Hstep as <-.
  - injection Hstep as <-. destruct Hst as [Hnd Hb]. split; simpl.
    + by rewrite edited_ids.
    + apply Forall_fmap. eapply Forall_impl; [exact Hb|]. intros x (k & ? & ?).
      exists k. split; [done|]. simpl. case_decide; [|done].
      by rewrite update_exercise_id.
  - injection Hstep as <-. unfold exec, addExerciseDraft, mbind, M_bind.
    rewrite uuid_run. destruct Hst as [Hnd Hb]. split; simpl.
    + rewrite fmap_app. apply NoDup_app. split_and!; [done| |apply NoDup_singleton].
      intros x (e & -> & He)%list_elem_of_fmap ?%list_elem_of_singleton.
      rewrite Forall_forall in Hb. destruct (Hb e He) as (k & Hk & Hek).
      simpl in *. assert (k = supply st) by (apply uuid_of_inj; congruence). lia.
    + apply Forall_app. split.
      * eapply Forall_impl; [exact Hb|]. intros x (k & ? & ?). exists k.
        split; [lia|done].
      * apply Forall_singleton. exists (supply st). split; [lia|done].
  - injection Hstep as <-. destruct Hst as [Hnd Hb]. split; simpl.
    + case_decide; [done|]. eapply sublist_NoDup; [exact Hnd|].
      apply fmap_sublist, sublist_filter.
    + case_decide; [done|]. by apply Forall_kept.
  - injection Hstep as <-. rewrite addSession_run. cbv zeta.
    case_decide; apply drafts_fresh_one; lia.
  - rewrite applyTemplateToDay_run in Hstep.
    destruct (JS.at_ templates templateIndex) as [template|]; [|done].
    injection Hstep as <-. apply drafts_fresh_more; [done|lia].
  - by injection Hstep as <-.
  - injection Hstep as <-. rewrite duplicateSession_run.
    destruct (JS.find _ _) as [target|]; [|done]. apply drafts_fresh_more; [done|lia].
  - by injection Hstep as <-.
Qed.

Lemma step_exercise_ids (ev : Event) (st st' : State) :
  step ev st = Some st' →
  exercise_ids_distinct (sessions st) → exercise_ids_distinct (sessions st').
Proof.
  unfold exercise_ids_distinct. intros Hstep Hst. destruct ev; simpl in Hstep.
  - by injection Hstep as <-.
  - by injection Hstep as <-.
  - injection Hstep as <-. unfold exec, addExerciseDraft, mbind, M_bind.
    by rewrite uuid_run.
  - by injection Hstep as <-.
  - injection Hstep as <-. rewrite addSession_run. cbv zeta.
    case_decide; simpl; apply Forall_app; (split; [done|]); apply Forall_singleton;
      simpl; [apply NoDup_singleton|apply fresh_copies_NoDup].
  - rewrite applyTemplateToDay_run in Hstep.
    destruct (JS.at_ templates templateIndex) as [template|]; [|done].
    injection Hstep as <-. simpl. apply Forall_app. split; [done|].
    apply Forall_singleton, fresh_copies_NoDup.
  - injection Hstep as <-. by apply Forall_kept.
  - injection Hstep as <-. rewrite duplicateSession_run.
    destruct (JS.find _ _) as [target|]; [|done]. simpl.
    apply Forall_app. split; [done|]. apply Forall_singleton, fresh_copies_NoDup.
  - injection Hstep as <-. by apply Forall_kept.
Qed.

Lemma initial_ids_fresh : ids_fresh initial_state.
Proof.
  split; [apply NoDup_singleton|]. apply Forall_singleton.
  exists 10%nat. split; [simpl; lia|done].
Qed.

Lemma initial_drafts_fresh : drafts_fresh initial_state.
Proof. apply (drafts_fresh_one "8-12" 11 12). lia. Qed.

Lemma initial_exercise_ids : exercise_ids_distinct (sessions initial_state).
Proof.
  apply Forall_singleton. simpl. apply NoDup_cons. split; [|apply NoDup_singleton].
  intros Heq%list_elem_of_singleton. by apply uuid_of_inj in Heq.
Qed.

(** X17: in every state that a sequence of actions leads to, no two
    sessions of the store have the same identifier, no two exercises of a
    session have, and no two draft rows have. *)
Theorem identifiers_distinct (evs : list Event) (st : State) :
  run evs initial_state = Some st →
  NoDup (session_ids (sessions st))
  ∧ Forall (λ session, NoDup (e_id <$> s_exercises session)) (sessions st)
  ∧ NoDup (e_id <$> exerciseDrafts st).
Proof.
  intros Hrun. split_and!.
  - eapply (run_invariant ids_fresh step_ids_fresh); [|exact Hrun].
    apply initial_ids_fresh.
  - eapply (run_invariant (λ st, exercise_ids_distinct (sessions st))
              step_exercise_ids); [|exact Hrun]. apply initial_exercise_ids.
  - eapply (run_invariant drafts_fresh step_drafts_fresh); [|exact Hrun].
    apply initial_drafts_fresh.
Qed.

Lemma identifiers_distinct_witness :
  NoDup (session_ids
           (sessions (exec (duplicateSession (uuid_of 10) Next "Nov 1")
                        (exec (addSession None) initial_state)))).
Proof.
  apply (identifiers_distinct
           [AddSessionClick; DuplicateClick (uuid_of 10) Next "Nov 1"]).
  reflexivity.
Defined.

(** ** New identifiers *)

Lemma Forall_mapped {A B} (f : A → B) (P : B → Prop) (l : list A) :
  Forall P (f <$> l) → Forall (λ x, P (f x)) l.
Proof. by rewrite Forall_fmap. Qed.

Lemma drawn_before_more (n m : nat) (id : string) :
  drawn_before n id → (n ≤ m)%nat → drawn_before m id.
Proof. intros (k & ? & ?) ?. exists k. split; [lia|done]. Qed.

Lemma drawn_before_not (n j : nat) : (n ≤ j)%nat → ¬ drawn_before n (uuid_of j).
Proof. intros Hj (k & Hk & Heq%uuid_of_inj). lia. Qed.

Lemma fresh_copies_offsets (n : nat) (l : list ExercisePlan) :
  e_id <$> fresh_copies n l = uuid_of <$> ((λ i, (n + i)%nat) <$> seq 0 (length l)).
Proof. rewrite fresh_copies_ids. by rewrite <-list_fmap_compose. Qed.

Lemma offsets_elem (n len j : nat) :
  j ∈ (λ i, (n + i)%nat) <$> seq 0 len ↔ (n ≤ j < n + len)%nat.
Proof.
  rewrite list_elem_of_fmap. split.
  - intros (i & -> & Hi%elem_of_seq). lia.
  - intros Hj. exists (j - n)%nat. split; [lia|]. apply elem_of_seq. lia.
Qed.

Lemma offsets_NoDup (n len : nat) : NoDup ((λ i, (n + i)%nat) <$> seq 0 len).
Proof. apply NoDup_fmap_2; [|apply NoDup_seq]. intros i j Hij. lia. Qed.

Lemma fresh_copies_drawn (n m : nat) (l : list ExercisePlan) :
  (n + length l ≤ m)%nat →
  Forall (λ exercise, drawn_before m (e_id exercise)) (fresh_copies n l).
Proof.
  intros Hm. apply (Forall_fmap e_id (drawn_before m)).
  rewrite fresh_copies_offsets. apply Forall_fmap, Forall_forall.
  intros j Hj%offsets_elem. exists j. split; [lia|done].
Qed.

Lemma exercises_drawn_append (st : State) (added : SessionPlan) (n : nat)
    (form : SessionForm) (drafts : list ExercisePlan) :
  exercises_drawn st → (supply st ≤ n)%nat →
  Forall (λ exercise, drawn_before n (e_id exercise)) (s_exercises added) →
  exercises_drawn {| sessions := sessions st ++ [added]; sessionForm := form;
                     exerciseDrafts := drafts; supply := n |}.
Proof.
  intros [Hs Hn] Hle Hadd. split; simpl; [|lia]. apply Forall_app. split.
  - eapply Forall_impl; [exact Hs|]. intros s Hs'.
    eapply Forall_impl; [exact Hs'|]. intros e He.
    eapply drawn_before_more; [exact He|exact Hle].
  - by apply Forall_singleton.
Qed.

Lemma find_elem_of {A} (P : A → Prop) `{∀ x, Decision (P x)} (l : list A) (x : A) :
  JS.find P l = Some x → x ∈ l.
Proof.
  unfold JS.find. destruct (list_find P l) as [[i y]|] eqn:E; [|done].
  intros [= <-]. apply list_find_Some in E as (Hi & _). by eapply list_elem_of_lookup_2.
Qed.

Lemma step_exercises_drawn (ev : Event) (st st' : State) :
  step ev st = Some st' → exercises_drawn st → exercises_drawn st'.
Proof.
  intros Hstep Hst. destruct ev; simpl in Hstep.
  - by injection Hstep as <-.
  - by injection Hstep as <-.
  - injection Hstep as <-. unfold exec, addExerciseDraft, mbind, M_bind.
    rewrite uuid_run. destruct Hst as [Hs Hn]. split; simpl; [|lia].
    eapply Forall_impl; [exact Hs|]. intros s Hs'.
    eapply Forall_impl; [exact Hs'|]. intros e He.
    eapply drawn_before_more; [exact He|lia].
  - by injection Hstep as <-.
  - injection Hstep as <-. rewrite addSession_run. cbv zeta. case_decide.
    + apply exercises_drawn_append; [done|lia|]. simpl. apply Forall_singleton.
      exists (supply st). split; [lia|done].
    + apply exercises_drawn_append; [done|lia|]. simpl.
      apply fresh_copies_drawn. lia.
  - rewrite applyTemplateToDay_run in Hstep.
    destruct (JS.at_ templates templateIndex) as [template|]; [|done].
    injection Hstep as <-. apply exercises_drawn_append; [done|lia|]. simpl.
    apply fresh_copies_drawn. lia.
  - injection Hstep as <-. destruct Hst as [Hs Hn]. split; [|done].
    by apply Forall_kept.
  - injection Hstep as <-. rewrite duplicateSession_run.
    destruct (JS.find _ _) as [target|]; [|done].
    apply exercises_drawn_append; [done|lia|]. simpl.
    apply fresh_copies_drawn. lia.
  - injection Hstep as <-. destruct Hst as [Hs Hn]. split; [|done].
    by apply Forall_kept.
Qed.

Lemma initial_exercises_drawn : exercises_drawn initial_state.
Proof.
  split; [|simpl; lia]. apply Forall_singleton. simpl.
  repeat (apply Forall_cons; split); [by exists 0%nat; split; [lia|]|
    by exists 1%nat; split; [lia|]|apply Forall_nil_2].
Qed.

(** Every identifier that a reachable state holds was drawn from the
    supply before. *)
Lemma reachable_drawn (st : State) :
  reachable st → Forall (drawn_before (supply st)) (ids_in_use st).
Proof.
  intros [evs Hrun].
  pose proof (run_invariant ids_fresh step_ids_fresh evs _ _
                initial_ids_fresh Hrun) as [_ Hsessions].
  pose proof (run_invariant drafts_fresh step_drafts_fresh evs _ _
                initial_drafts_fresh Hrun) as [_ Hdrafts].
  pose proof (run_invariant exercises_drawn step_exercises_drawn evs _ _
                initial_exercises_drawn Hrun) as [Hexercises Hsupply].
  unfold ids_in_use. repeat (apply Forall_app; split).
  - by apply Forall_fmap.
  - apply Forall_fmap, Forall_concat, Forall_fmap. exact Hexercises.
  - by apply Forall_fmap.
  - repeat (apply Forall_cons; split); [..|apply Forall_nil_2];
      (eexists; split; [|reflexivity]); lia.
  - repeat (apply Forall_cons; split); [..|apply Forall_nil_2];
      (eexists; split; [|reflexivity]); lia.
Qed.

(** Identifiers drawn from the supply of a reachable state are distinct
    and none of them is in use in it. *)
Lemma new_identifiers (st : State) (js : list nat) :
  reachable st → NoDup js → Forall (λ j, (supply st ≤ j)%nat) js →
  NoDup (uuid_of <$> js) ∧ Forall (λ id, ¬ in_use st id) (uuid_of <$> js).
Proof.
  intros Hst Hnd Hjs. split.
  - apply NoDup_fmap_2; [|done]. intros i j. apply uuid_of_inj.
  - apply Forall_fmap. eapply Forall_impl; [exact Hjs|]. intros j Hj Hin.
    apply reachable_drawn in Hst. rewrite Forall_forall in Hst.
    by apply (drawn_before_not (supply st) j Hj), Hst.
Qed.

Lemma session_and_copies_new (st : State) (n : nat) (l : list ExercisePlan) :
  reachable st → (supply st ≤ n)%nat →
  let ids := uuid_of n :: (e_id <$> fresh_copies (S n) l) in
  NoDup ids ∧ Forall (λ id, ¬ in_use st id) ids.
Proof.
  intros Hst Hn ids. subst ids. rewrite fresh_copies_offsets.
  apply (new_identifiers st (n :: ((λ i, (S n + i)%nat) <$> seq 0 (length l))) Hst).
  - apply NoDup_cons. split; [|apply offsets_NoDup]. intros Hin%offsets_elem. lia.
  - apply Forall_cons. split; [done|]. apply Forall_forall.
    intros j Hj%offsets_elem. lia.
Qed.

Lemma adjustTime_one_hour (direction : Direction) (time : string) :
  one_hour direction time (adjustTime (offsetMinutes direction) time).
Proof.
  intros h m Hh Hm ->. rewrite adjustTime_time_text by lia.
  pose proof (shifted_range h m (offsetMinutes direction)) as Hr.
  unfold shifted in *. f_equal; destruct direction; simpl in *;
    Z.to_euclidean_division_equations; lia.
Qed.

(** X13: in a state that the page can reach where some draft has a name
    that is not blank, Add Session appends one session.  It has the day,
    the times, the focus, the intensity, the location, the target and the
    notes of the form and, in the order of the rows, the prescriptions of
    exactly the drafts with such a name.  The identifiers of the session,
    of its exercises and of the one draft row that is left differ from
    each other, and none of them is in use before: not by a session, an
    exercise of a session, a draft row, a template or a default exercise.
    The form stays, and the draft row that is left has no name, 3 sets and
    "8-12". *)
Theorem addSession_named_drafts (st : State) :
  reachable st →
  let named := filter (λ exercise, ¬ blank (e_name exercise)) (exerciseDrafts st) in
  named ≠ [] →
  let st' := exec (addSession None) st in
  ∃ added row,
    sessions st' = sessions st ++ [added]
    ∧ s_day added = f_day (sessionForm st)
    ∧ s_start added = f_start (sessionForm st)
    ∧ s_end added = f_end (sessionForm st)
    ∧ s_focus added = f_focus (sessionForm st)
    ∧ s_intensity added = f_intensity (sessionForm st)
    ∧ s_location added = f_location (sessionForm st)
    ∧ s_target added = f_target (sessionForm st)
    ∧ s_notes added = f_notes (sessionForm st)
    ∧ prescription <$> s_exercises added = prescription <$> named
    ∧ NoDup (s_id added :: e_id row :: (e_id <$> s_exercises added))
    ∧ Forall (λ id, ¬ in_use st id)
        (s_id added :: e_id row :: (e_id <$> s_exercises added))
    ∧ sessionForm st' = sessionForm st
    ∧ exerciseDrafts st' = [row]
    ∧ prescription row = ("", "", 3, "8-12", "").
Proof.
  intros Hst named Hnamed st'. subst st'. rewrite addSession_run. cbv zeta. simpl.
  rewrite filter_named. fold named. rewrite decide_False by (by destruct named).
  destruct (new_identifiers st
              ((supply st + length named)%nat :: S (supply st + length named)
               :: ((λ i, (supply st + i)%nat) <$> seq 0 (length named))) Hst)
    as [Hnd Hnew].
  { repeat (apply NoDup_cons; split); [| |apply offsets_NoDup].
    - intros [?|Hin%offsets_elem]%elem_of_cons; lia.
    - intros Hin%offsets_elem. lia. }
  { repeat (apply Forall_cons; split); [lia|lia|]. apply Forall_forall.
    intros j Hj%offsets_elem. lia. }
  rewrite !fmap_cons, <-fresh_copies_offsets in Hnd, Hnew.
  exists (session_of_form (uuid_of (supply st + length named)) (sessionForm st)
            (fresh_copies (supply st) named)),
    (blank_draft (uuid_of (S (supply st + length named))) "8-12").
  simpl. split_and!; try done. apply fresh_copies_prescription.
Qed.

Lemma addSession_named_drafts_witness :
  ∃ added row,
    sessions (exec (addSession None) example_state)
    = sessions example_state ++ [added]
    ∧ s_day added = Monday ∧ s_start added = "07:00"
    ∧ e_name <$> s_exercises added = ["Plank"]
    ∧ ¬ in_use example_state (s_id added)
    ∧ Forall (λ exercise, ¬ in_use example_state (e_id exercise)) (s_exercises added)
    ∧ prescription row = ("", "", 3, "8-12", "").
Proof.
  destruct (addSession_named_drafts example_state)
    as (added & row & Hs & Hday & Hstart & _ & _ & _ & _ & _ & _ & Hp & _ & Hnew
        & _ & _ & Hr).
  - exists example_events. reflexivity.
  - vm_compute. discriminate.
  - exists added, row. split_and!; [exact Hs|exact Hday|exact Hstart| | | |exact Hr].
    + apply (f_equal (fmap (λ p : string * string * Z * string * string, p.1.1.1.1)))
        in Hp.
      rewrite <-!list_fmap_compose in Hp. exact Hp.
    + by apply Forall_cons in Hnew as [? _].
    + apply Forall_cons in Hnew as [_ [_ Hnew]%Forall_cons].
      exact (Forall_mapped _ _ _ Hnew).
Defined.

(** X14: Apply Template throws exactly for an index outside the catalogue
    of three templates.  For an index inside it appends one session on the
    given day from 18:00 to 19:00 with the focus, intensity, location,
    target and notes of the template and the prescriptions of its
    exercises, and leaves the form and the drafts.  In a state that the
    page can reach, the identifiers of the session and of its exercises
    differ from each other and none of them is in use before: not by a
    session, an exercise of a session, a draft row, a template or a
    default exercise. *)
Theorem applyTemplateToDay_result (st : State) (day : DayKey) (templateIndex : Z) :
  (applyTemplateToDay day templateIndex st = None ↔ ¬ 0 ≤ templateIndex < 3)
  ∧ (∀ template, JS.at_ templates templateIndex = Some template →
     ∃ st' added,
       applyTemplateToDay day templateIndex st = Some st'
       ∧ sessions st' = sessions st ++ [added]
       ∧ s_day added = day ∧ s_start added = "18:00" ∧ s_end added = "19:00"
       ∧ s_focus added = t_focus template
       ∧ s_intensity added = t_intensity template
       ∧ s_location added = t_location template
       ∧ s_target added = t_target template
       ∧ s_notes added = t_notes template
       ∧ prescription <$> s_exercises added = prescription <$> t_exercises template
       ∧ (reachable st →
          NoDup (s_id added :: (e_id <$> s_exercises added))
          ∧ Forall (λ id, ¬ in_use st id) (s_id added :: (e_id <$> s_exercises added)))
       ∧ sessionForm st' = sessionForm st
       ∧ exerciseDrafts st' = exerciseDrafts st).
Proof.
  rewrite applyTemplateToDay_run. split.
  - pose proof (at_Some_range templates templateIndex) as Hr.
    change (Z.of_nat (length templates)) with 3 in Hr.
    destruct (JS.at_ templates templateIndex) as [template|]; simpl.
    + split; [done|]. intros Hn. destruct Hn. apply Hr. by eexists.
    + split; [|done]. intros _ Hn. apply Hr in Hn. by destruct Hn.
  - intros template ->. simpl. eexists _, _. split_and!; try done; simpl.
    + apply fresh_copies_prescription.
    + intros Hst. by apply session_and_copies_new.
Qed.

Lemma applyTemplateToDay_result_witness :
  applyTemplateToDay Friday 3 example_state = None
  ∧ ∃ st' added,
      applyTemplateToDay Friday 2 example_state = Some st'
      ∧ sessions st' = sessions example_state ++ [added]
      ∧ s_day added = Friday ∧ s_focus added = "Recovery"
      ∧ ¬ in_use example_state (s_id added)
      ∧ Forall (λ exercise, ¬ in_use example_state (e_id exercise))
          (s_exercises added).
Proof.
  split.
  - apply (applyTemplateToDay_result example_state Friday 3). lia.
  - destruct (applyTemplateToDay_result example_state Friday 2) as [_ H].
    destruct (H _ eq_refl)
      as (st' & added & H1 & H2 & H3 & _ & _ & H4 & _ & _ & _ & _ & _ & Hnew & _).
    destruct Hnew as [_ Hnew]; [exists example_events; reflexivity|].
    exists st', added. split_and!; [exact H1|exact H2|exact H3|exact H4| |].
    + by apply Forall_cons in Hnew as [? _].
    + apply Forall_cons in Hnew as [_ Hnew]. exact (Forall_mapped _ _ _ Hnew).
Defined.

(** X16: in a state that the page can reach, Duplicate Session on a
    session of the store appends a copy with the focus, intensity, location
    and target of the original and the prescriptions of its exercises in
    their order.  The identifiers of the copy and of its exercises differ
    from each other and none of them is in use before: not by a session, an
    exercise of a session, a draft row, a template or a default exercise.
    A start or end that is a zero-padded time "HH:MM" is moved by one hour,
    forward for the next day and backward for the previous one, around
    midnight, with the minutes kept.  The notes are those of the original
    followed by the direction and the date; the form and the drafts
    stay. *)
Theorem duplicateSession_copy (st : State) (target : SessionPlan)
    (direction : Direction) (today : string) :
  reachable st → target ∈ sessions st →
  let st' := exec (duplicateSession (s_id target) direction today) st in
  ∃ copy,
    sessions st' = sessions st ++ [copy]
    ∧ s_focus copy = s_focus target ∧ s_intensity copy = s_intensity target
    ∧ s_location copy = s_location target ∧ s_target copy = s_target target
    ∧ prescription <$> s_exercises copy = prescription <$> s_exercises target
    ∧ NoDup (s_id copy :: (e_id <$> s_exercises copy))
    ∧ Forall (λ id, ¬ in_use st id) (s_id copy :: (e_id <$> s_exercises copy))
    ∧ one_hour direction (s_start target) (s_start copy)
    ∧ one_hour direction (s_end target) (s_end copy)
    ∧ s_notes copy
      = s_notes target +:+ " • Duplicated "
        +:+ match direction with Next => "forward" | Previous => "backward" end
        +:+ " on " +:+ today
    ∧ sessionForm st' = sessionForm st
    ∧ exerciseDrafts st' = exerciseDrafts st.
Proof.
  intros Hst Hin st'. subst st'. rewrite duplicateSession_run.
  assert (JS.find (λ session, s_id session = s_id target) (sessions st) = Some target)
    as ->.
  { destruct (list_elem_of_split _ _ Hin) as (before & after & Heq).
    rewrite Heq. apply find_first; [|done].
    pose proof (reachable_ids_unique st Hst) as Hnd. rewrite Heq in Hnd.
    unfold session_ids in Hnd. rewrite fmap_app, fmap_cons in Hnd.
    apply NoDup_app in Hnd as (_ & Hnd & _). apply Forall_forall. intros s Hs Hid.
    apply (Hnd (s_id s)); [by apply list_elem_of_fmap_2|].
    rewrite Hid. apply list_elem_of_here. }
  destruct (session_and_copies_new st (supply st) (s_exercises target) Hst)
    as [Hnd Hnew]; [done|].
  eexists. simpl. split_and!; try done.
  - apply fresh_copies_prescription.
  - apply adjustTime_one_hour.
  - apply adjustTime_one_hour.
Qed.

Lemma duplicateSession_copy_witness :
  ∃ copy,
    sessions (exec (duplicateSession (uuid_of 10) Previous "Nov 1") example_state)
    = sessions example_state ++ [copy]
    ∧ s_start copy = "06:00" ∧ s_end copy = "07:15"
    ∧ ¬ in_use example_state (s_id copy)
    ∧ Forall (λ exercise, ¬ in_use example_state (e_id exercise)) (s_exercises copy)
    ∧ s_notes copy = " • Duplicated backward on Nov 1".
Proof.
  destruct (duplicateSession_copy example_state
              (session_of_form (uuid_of 10) initialSessionForm defaultExercises)
              Previous "Nov 1")
    as (copy & H1 & _ & _ & _ & _ & _ & _ & Hnew & H2 & H3 & H4 & _).
  - exists example_events. reflexivity.
  - apply list_elem_of_here.
  - exists copy. split_and!; [exact H1| | | | |exact H4].
    + apply (H2 7 0); [lia|lia|reflexivity].
    + apply (H3 8 15); [lia|lia|reflexivity].
    + by apply Forall_cons in Hnew as [? _].
    + apply Forall_cons in Hnew as [_ Hnew]. exact (Forall_mapped _ _ _ Hnew).
Defined.

Lemma step_sessions_nonempty (ev : Event) (st st' : State) :
  step ev st = Some st' →
  sessions_nonempty (sessions st) → sessions_nonempty (sessions st').
Proof.
  unfold sessions_nonempty. intros Hstep Hst. destruct ev; simpl in Hstep.
  - by injection Hstep as <-.
  - by injection Hstep as <-.
  - injection Hstep as <-. unfold exec, addExerciseDraft, mbind, M_bind.
    by rewrite uuid_run.
  - by injection Hstep as <-.
  - injection Hstep as <-. destruct (addSession_appends None st) as (added & -> & ?).
    apply Forall_app. split; [done|]. by apply Forall_singleton.
  - rewrite applyTemplateToDay_run in Hstep.
    destruct (JS.at_ templates templateIndex) as [template|] eqn:Ht; [|done].
    injection Hstep as <-. simpl. apply Forall_app. split; [done|].
    apply Forall_singleton. simpl. intros Hnil.
    apply (f_equal length) in Hnil. rewrite fresh_copies_length in Hnil.
    apply at_elem_of in Ht.
    assert (Forall (λ t, t_exercises t ≠ []) templates) as Hall
      by (repeat constructor; discriminate).
    rewrite Forall_forall in Hall. apply (Hall template Ht).
    by destruct (t_exercises template).
  - injection Hstep as <-. by apply Forall_kept.
  - injection Hstep as <-. rewrite duplicateSession_run.
    destruct (JS.find _ _) as [target|] eqn:Hf; [|done]. simpl.
    apply Forall_app. split; [done|]. apply Forall_singleton. simpl. intros Hnil.
    apply (f_equal length) in Hnil. rewrite fresh_copies_length in Hnil.
    apply find_Some in Hf as (before & after & Heq & _).
    rewrite Heq, Forall_app, Forall_cons in Hst. destruct Hst as (_ & Ht & _).
    by destruct (s_exercises target).
  - injection Hstep as <-. by apply Forall_kept.
Qed.

(** X18: in every state that a sequence of actions leads to, every session
    of the store has at least one exercise. *)
Theorem sessions_have_exercises (evs : list Event) (st : State) :
  run evs initial_state = Some st →
  Forall (λ session, s_exercises session ≠ []) (sessions st).
Proof.
  intros Hrun.
  eapply (run_invariant (λ st, sessions_nonempty (sessions st))
            step_sessions_nonempty); [|exact Hrun].
  by apply Forall_singleton.
Qed.

Lemma sessions_have_exercises_witness :
  Forall (λ session, s_exercises session ≠ [])
    (sessions (exec (addSession None) initial_state)).
Proof.
  apply (sessions_have_exercises [AddSessionClick]). reflexivity.
Defined.

Lemma filter_other_nonempty (id : string) (l : list ExercisePlan) :
  NoDup (e_id <$> l) → (2 ≤ length l)%nat →
  filter (λ exercise, e_id exercise ≠ id) l ≠ [].
Proof.
  destruct l as [|x [|y l]]; simpl; [lia|lia|]. intros Hnd _.
  apply NoDup_cons in Hnd as [Hx _].
  destruct (decide (e_id x = id)) as [Hxid|Hxid].
  - rewrite filter_cons_False by (by intros ?). rewrite filter_cons_True; [done|].
    intros Hy. apply Hx. rewrite Hxid, <-Hy. apply list_elem_of_here.
  - by rewrite filter_cons_True.
Qed.

Lemma step_drafts_nonempty (ev : Event) (st st' : State) :
  step ev st = Some st' →
  drafts_fresh st ∧ exerciseDrafts st ≠ [] →
  drafts_fresh st' ∧ exerciseDrafts st' ≠ [].
Proof.
  intros Hstep [Hf Hne]. split; [by eapply step_drafts_fresh|].
  destruct ev; simpl in Hstep.
  - by injection Hstep as <-.
  - injection Hstep as <-. simpl. by destruct (exerciseDrafts st).
  - injection Hstep as <-. unfold exec, addExerciseDraft, mbind, M_bind.
    rewrite uuid_run. simpl. by destruct (exerciseDrafts st).
  - injection Hstep as <-. simpl. case_decide as Hlen; [done|].
    apply filter_other_nonempty; [apply Hf|].
    destruct (exerciseDrafts st) as [|? [|? ?]]; simpl in *; (done || lia).
  - injection Hstep as <-. rewrite addSession_run. cbv zeta. by case_decide.
  - rewrite applyTemplateToDay_run in Hstep.
    destruct (JS.at_ templates templateIndex) as [template|]; [|done].
    by injection Hstep as <-.
  - by injection Hstep as <-.
  - injection Hstep as <-. rewrite duplicateSession_run. by destruct (JS.find _ _).
  - by injection Hstep as <-.
Qed.

(** X19: in every state that a sequence of actions leads to there is at
    least one draft row: removing a row never removes the last one. *)
Theorem drafts_never_empty (evs : list Event) (st : State) :
  run evs initial_state = Some st → exerciseDrafts st ≠ [].
Proof.
  intros Hrun.
  eapply (run_invariant (λ st, drafts_fresh st ∧ exerciseDrafts st ≠ [])
            step_drafts_nonempty); [|exact Hrun].
  split; [apply initial_drafts_fresh|done].
Qed.

Lemma drafts_never_empty_witness :
  exerciseDrafts
    (exec (removeExerciseDraft (uuid_of 11))
       (exec (removeExerciseDraft (uuid_of 12)) (exec addExerciseDraft initial_state)))
  ≠ [].
Proof.
  apply (drafts_never_empty
           [AddExerciseClick; RemoveExerciseClick (uuid_of 12);
            RemoveExerciseClick (uuid_of 11)]).
  reflexivity.
Defined.

(** ** Ties: the stable sort keeps the order of the store *)

Section stable.
Context {A : Type} (cmp : A → A → Z).

Lemma insert_sorted_head (x : A) (l : list A) :
  JS.insert_sorted cmp x l !! 0%nat
  = match l with
    | [] => Some x
    | y :: _ => if decide (cmp x y ≤ 0) then Some x else Some y
    end.
Proof. destruct l as [|y l]; simpl; [done|]. by case_decide. Qed.

Lemma sort_head_elem (l : list A) (y : A) : JS.sort cmp l !! 0%nat = Some y → y ∈ l.
Proof. intros Hy%list_elem_of_lookup_2. by rewrite sort_perm in Hy. Qed.

Lemma sort_head_first (before after : list A) (x : A) :
  Forall (λ b, ¬ cmp b x ≤ 0) before → Forall (λ a, cmp x a ≤ 0) after →
  JS.sort cmp (before ++ x :: after) !! 0%nat = Some x.
Proof.
  intros Hb Ha. induction Hb as [|b before Hbx _ IH]; simpl.
  - rewrite insert_sorted_head. destruct (JS.sort cmp after) as [|y k] eqn:E; [done|].
    rewrite decide_True; [done|]. rewrite Forall_forall in Ha. apply Ha.
    apply sort_head_elem. by rewrite E.
  - rewrite insert_sorted_head. destruct (JS.sort cmp (before ++ x :: after)) as [|y k];
      [done|]. simpl in IH. injection IH as ->. by rewrite decide_False.
Qed.

Lemma insert_sorted_filter (P : A → Prop) `{∀ x, Decision (P x)} (x : A) (l : list A) :
  (∀ y, P x → P y → cmp x y ≤ 0) →
  filter P (JS.insert_sorted cmp x l) = filter P (x :: l).
Proof.
  intros Hclass. induction l as [|y l IH]; simpl; [done|]. case_decide as Hxy; [done|].
  destruct (decide (P x)) as [Hx|Hx].
  - assert (¬ P y) by (intros Hy; by apply Hxy, Hclass).
    rewrite (filter_cons_False P y) by done. rewrite IH.
    rewrite !(filter_cons_True P x) by done. by rewrite (filter_cons_False P y).
  - rewrite (filter_cons_False P x) by done. rewrite !(filter_cons P y), IH.
    by rewrite (filter_cons_False P x).
Qed.

Lemma sort_filter (P : A → Prop) `{∀ x, Decision (P x)} (l : list A) :
  (∀ x y, P x → P y → cmp x y ≤ 0) → filter P (JS.sort cmp l) = filter P l.
Proof.
  intros Hclass. induction l as [|x l IH]; simpl; [done|].
  rewrite insert_sorted_filter by auto. by rewrite !(filter_cons P x), IH.
Qed.
End stable.

Lemma first_least_next (before after : list SessionPlan) (session : SessionPlan) :
  first_least before session after →
  nextSessionId (before ++ session :: after) = Some (s_id session).
Proof.
  intros [Hb Ha]. unfold nextSessionId.
  rewrite decide_False by (rewrite length_app; simpl; lia).
  unfold JS.at_. rewrite decide_True by lia. change (Z.to_nat 0) with 0%nat.
  rewrite (sort_head_first compareSessions before after session); [done|..].
  - eapply Forall_impl; [exact Hb|]. intros b Hbs. by rewrite compareSessions_le.
  - eapply Forall_impl; [exact Ha|]. intros a Hsa. by rewrite compareSessions_le.
Qed.

Lemma first_least_exists (store : list SessionPlan) :
  store ≠ [] →
  ∃ before session after,
    store = before ++ session :: after ∧ first_least before session after.
Proof.
  induction store as [|x l IH]; [done|]. intros _. destruct l as [|y l'].
  { exists [], x, []. split; [done|]. by split. }
  destruct IH as (b & s & a & Heq & Hb & Ha); [done|]. rewrite Heq.
  destruct (decide (compareSessions x s ≤ 0)) as [Hxs|Hxs];
    rewrite compareSessions_le in Hxs.
  - exists [], x, (b ++ s :: a). split; [done|]. split; [done|].
    apply Forall_app. split; [|apply Forall_cons; split].
    + eapply Forall_impl; [exact Hb|]. intros o Ho.
      destruct (session_le_total o s) as [?|Hso]; [done|].
      by apply (session_le_trans x s o).
    + done.
    + eapply Forall_impl; [exact Ha|]. intros o Ho.
      by apply (session_le_trans x s o).
  - exists (x :: b), s, a. split; [done|]. split; [|done]. by apply Forall_cons.
Qed.

(** X20: in a store whose start times are zero-padded times "HH:MM", ties
    for the next session are broken by the order of the store: a session
    is the next one when every session before it in the store is strictly
    later and no session after it is earlier. *)
Theorem nextSessionId_first (before after : list SessionPlan) (session : SessionPlan) :
  starts_valid (before ++ session :: after) →
  Forall (λ other, ¬ session_le other session) before →
  Forall (session_le session) after →
  nextSessionId (before ++ session :: after) = Some (s_id session).
Proof. intros _ Hb Ha. by apply first_least_next. Qed.

Lemma nextSessionId_first_witness : nextSessionId example_store = Some "m2".
Proof.
  apply (nextSessionId_first
           [example_session "t" Tuesday "06:00"; example_session "m1" Monday "18:00"]
           [example_session "m3" Monday "07:00"]
           (example_session "m2" Monday "07:00")).
  - repeat (apply Forall_cons; split); [valid_time_at 6 0|valid_time_at 18 0|
    valid_time_at 7 0|valid_time_at 7 0|apply Forall_nil_2].
  - apply (bool_decide_unpack _). vm_compute. exact I.
  - apply (bool_decide_unpack _). vm_compute. exact I.
Defined.

Lemma lex_le_refl (a : string) : lex_le a a.
Proof. by destruct (lex_le_total a a). Qed.

(** X21: in the bucket of a day, sessions with the same start time are in
    the order in which the store has them. *)
Theorem grouped_ties (store : list SessionPlan) (day : DayKey)
    (bucket : list SessionPlan) (start : string) :
  grouped store !! day = Some bucket →
  filter (λ session, s_start session = start) bucket
  = filter (λ session, s_start session = start)
      (filter (λ session, s_day session = day) store).
Proof.
  rewrite grouped_lookup. intros [= <-]. apply sort_filter.
  intros x y -> <-. apply localeCompare_le, lex_le_refl.
Qed.

Lemma grouped_ties_witness :
  filter (λ session, s_start session = "07:00")
    (JS.sort (λ a b, JS.localeCompare (s_start a) (s_start b))
       (filter (λ session, s_day session = Monday) (sessions initial_state)))
  = filter (λ session, s_start session = "07:00")
      (filter (λ session, s_day session = Monday) (sessions initial_state)).
Proof.
  apply (grouped_ties (sessions initial_state) Monday). apply grouped_lookup.
Defined.

Lemma filter_same_id (store : list SessionPlan) (session : SessionPlan) :
  NoDup (session_ids store) → session ∈ store →
  filter (λ other, s_id other = s_id session) store = [session].
Proof.
  unfold session_ids. induction store as [|x l IH]; [by intros _ ?%elem_of_nil|].
  rewrite fmap_cons. intros [Hx Hl]%NoDup_cons [->|Hin]%elem_of_cons.
  - rewrite filter_cons_True by done. f_equal. apply filter_none, Forall_forall.
    intros y Hy Heq. apply Hx. rewrite <-Heq. apply list_elem_of_fmap. by exists y.
  - rewrite filter_cons_False; [by apply IH|]. intros Heq. apply Hx. rewrite Heq.
    apply list_elem_of_fmap. by exists session.
Qed.

Lemma next_session_exists (store : list SessionPlan) :
  store ≠ [] →
  ∃ session, session ∈ store ∧ nextSessionId store = Some (s_id session)
             ∧ ∀ other, other ∈ store → session_le session other.
Proof.
  intros (b & s & a & Heq & Hfl)%first_least_exists. exists s. rewrite Heq.
  split; [apply elem_of_app; right; apply list_elem_of_here|].
  split; [by apply first_least_next|]. destruct Hfl as [Hb Ha].
  intros o [Ho|[->|Ho]%elem_of_cons]%elem_of_app.
  - rewrite Forall_forall in Hb. destruct (session_le_total o s); [|done].
    by destruct (Hb o Ho).
  - by destruct (session_le_total s s).
  - rewrite Forall_forall in Ha. by apply Ha.
Qed.

(** X22: the page puts the ring around exactly one session card when the
    store is not empty, its identifiers are distinct and its start times
    are zero-padded times "HH:MM": the card of a session that no session
    precedes. *)
Theorem highlighted_one (store : list SessionPlan) :
  NoDup (session_ids store) → starts_valid store → store ≠ [] →
  ∃ session,
    filter (λ other, highlighted store other = true) store = [session]
    ∧ ∀ other, other ∈ store → session_le session other.
Proof.
  intros Hnd _ (s & Hin & Hnext & Hle)%next_session_exists. exists s. split; [|done].
  rewrite <-(filter_same_id store s Hnd Hin). apply list_filter_iff. intros x.
  unfold highlighted. rewrite bool_decide_eq_true, Hnext. split; congruence.
Qed.


Lemma highlighted_one_witness :
  ∃ session,
    filter (λ other, highlighted example_store other = true) example_store
    = [session]
    ∧ ∀ other, other ∈ example_store → session_le session other.
Proof.
  apply (highlighted_one example_store); [| |discriminate].
  - apply (bool_decide_unpack _). vm_compute. exact I.
  - repeat (apply Forall_cons; split); [valid_time_at 6 0|valid_time_at 18 0|
    valid_time_at 7 0|valid_time_at 7 0|apply Forall_nil_2].
Defined.

(** X23: the text of the next highlight is "No sessions yet" for the empty
    store; for a store with distinct identifiers, none of them empty, and
    with zero-padded start times "HH:MM" it is the focus of a session that
    no session precedes. *)
Theorem nextHighlight_focus (store : list SessionPlan) :
  (store = [] → nextHighlight store = Some "No sessions yet")
  ∧ (store ≠ [] → NoDup (session_ids store) →
     Forall (λ session, s_id session ≠ "") store → starts_valid store →
     ∃ session, session ∈ store
       ∧ nextHighlight store = Some (s_focus session)
       ∧ ∀ other, other ∈ store → session_le session other).
Proof.
  split; [by intros ->|].
  intros (s & Hin & Hnext & Hle)%next_session_exists Hnd Hids _. exists s.
  split; [done|]. split; [|done]. unfold nextHighlight. rewrite Hnext.
  rewrite Forall_forall in Hids. rewrite decide_False by (by apply Hids).
  apply list_elem_of_split in Hin as (b & a & ->).
  rewrite find_first; [done| |done]. apply Forall_forall. intros y Hy Heq.
  unfold session_ids in Hnd. rewrite fmap_app, fmap_cons in Hnd.
  apply NoDup_app in Hnd as (_ & Hnd & _). apply (Hnd (s_id y)).
  - apply list_elem_of_fmap. by exists y.
  - rewrite Heq. apply list_elem_of_here.
Qed.


Lemma nextHighlight_focus_witness :
  ∃ session, session ∈ example_store
    ∧ nextHighlight example_store = Some (s_focus session)
    ∧ ∀ other, other ∈ example_store → session_le session other.
Proof.
  apply (nextHighlight_focus example_store).
  - discriminate.
  - apply (bool_decide_unpack _). vm_compute. exact I.
  - repeat (apply Forall_cons; split); try discriminate. apply Forall_nil_2.
  - repeat (apply Forall_cons; split); [valid_time_at 6 0|valid_time_at 18 0|
    valid_time_at 7 0|valid_time_at 7 0|apply Forall_nil_2].
Defined.

Lemma same_id_same_session (store : list SessionPlan) (s1 s2 : SessionPlan) :
  NoDup (session_ids store) → s1 ∈ store → s2 ∈ store → s_id s1 = s_id s2 → s1 = s2.
Proof.
  intros Hnd H1 H2 Heq.
  assert (s1 ∈ filter (λ other, s_id other = s_id s2) store) as Hin
    by (by apply list_elem_of_filter).
  rewrite (filter_same_id store s2 Hnd H2) in Hin. by apply list_elem_of_singleton.
Qed.

(** X24: in a store with distinct identifiers, removing a session other
    than the next one, or clearing a day other than its day, leaves the
    next session the next one. *)
Theorem next_session_survives (st : State) (session : SessionPlan) :
  NoDup (session_ids (sessions st)) → session ∈ sessions st →
  nextSessionId (sessions st) = Some (s_id session) →
  (∀ sessionId, sessionId ≠ s_id session →
     nextSessionId (sessions (exec (removeSession sessionId) st))
     = Some (s_id session))
  ∧ (∀ day, day ≠ s_day session →
     nextSessionId (sessions (exec (clearDay day) st)) = Some (s_id session)).
Proof.
  intros Hnd Hin Hnext.
  destruct (first_least_exists (sessions st)) as (b & s & a & Heq & Hb & Ha).
  { intros Hnil. rewrite Hnil in Hin. by apply elem_of_nil in Hin. }
  assert (s = session) as ->.
  { apply (same_id_same_session (sessions st)); [done| |done|].
    - rewrite Heq. apply elem_of_app. right. apply list_elem_of_here.
    - rewrite Heq, (first_least_next b a s) in Hnext by done. congruence. }
  assert (∀ P : SessionPlan → Prop, ∀ Hdec : ∀ x, Decision (P x), P session →
    nextSessionId (filter P (sessions st)) = Some (s_id session)) as Hkeep.
  { intros P Hdec Hs. rewrite Heq, filter_app, filter_cons_True by done.
    apply first_least_next. split; by apply Forall_kept. }
  split.
  - intros sessionId Hne. apply Hkeep. congruence.
  - intros day Hday. apply Hkeep. congruence.
Qed.

Lemma next_session_survives_witness :
  nextSessionId (sessions (exec (removeSession "absent") initial_state))
  = Some (uuid_of 10).
Proof.
  apply (next_session_survives initial_state
           (session_of_form (uuid_of 10) initialSessionForm defaultExercises)).
  - apply NoDup_singleton.
  - apply list_elem_of_here.
  - reflexivity.
  - discriminate.
Defined.

(** X25: with zero-padded start times "HH:MM", a session appended to a
    store that is not empty becomes the next session exactly when it is
    strictly earlier than the next session so far; with a tie the older
    session stays. *)
Theorem next_session_after_append (store : list SessionPlan)
    (session added : SessionPlan) :
  starts_valid (store ++ [added]) →
  session ∈ store → (∀ other, other ∈ store → session_le session other) →
  nextSessionId store = Some (s_id session) →
  (session_le session added →
   nextSessionId (store ++ [added]) = Some (s_id session))
  ∧ (¬ session_le session added →
     nextSessionId (store ++ [added]) = Some (s_id added)).
Proof.
  intros _ Hin Hleast Hnext.
  destruct (first_least_exists store) as (b & s & a & Heq & Hb & Ha).
  { intros Hnil. rewrite Hnil in Hin. by apply elem_of_nil in Hin. }
  assert (s_id s = s_id session) as Hid.
  { rewrite Heq, (first_least_next b a s) in Hnext by done. congruence. }
  assert (session_le s session) as Hs.
  { rewrite Heq in Hin. apply elem_of_app in Hin as [Hin|[->|Hin]%elem_of_cons].
    - rewrite Forall_forall in Hb. destruct (session_le_total session s); [|done].
      by destruct (Hb session Hin).
    - by destruct (session_le_total s s).
    - rewrite Forall_forall in Ha. by apply Ha. }
  split; intros Hc.
  - rewrite <-Hid, Heq, <-app_assoc. simpl. apply first_least_next. split; [done|].
    apply Forall_app. split; [done|]. apply Forall_singleton.
    by apply (session_le_trans s session added).
  - apply (first_least_next store [] added). split; [|done].
    apply Forall_forall. intros o Ho Hoa.
    apply Hc. apply (session_le_trans session o added); [by apply Hleast|done].
Qed.


Lemma next_session_after_append_witness :
  nextSessionId (example_store ++ [example_session "tie" Monday "07:00"]) = Some "m2"
  ∧ nextSessionId (example_store ++ [example_session "early" Monday "06:59"])
    = Some "early".
Proof.
  split.
  - apply (next_session_after_append example_store
             (example_session "m2" Monday "07:00")
             (example_session "tie" Monday "07:00")).
    + repeat (apply Forall_cons; split); [valid_time_at 6 0|valid_time_at 18 0|
        valid_time_at 7 0|valid_time_at 7 0|valid_time_at 7 0|apply Forall_nil_2].
    + in_list.
    + intros other Ho. apply (bool_decide_unpack _).
      repeat (apply elem_of_cons in Ho as [->|Ho]; [vm_compute; exact I|]).
      by apply elem_of_nil in Ho.
    + reflexivity.
    + apply (bool_decide_unpack _). vm_compute. exact I.
  - apply (next_session_after_append example_store
             (example_session "m2" Monday "07:00")
             (example_session "early" Monday "06:59")).
    + repeat (apply Forall_cons; split); [valid_time_at 6 0|valid_time_at 18 0|
        valid_time_at 7 0|valid_time_at 7 0|valid_time_at 6 59|apply Forall_nil_2].
    + in_list.
    + intros other Ho. apply (bool_decide_unpack _).
      repeat (apply elem_of_cons in Ho as [->|Ho]; [vm_compute; exact I|]).
      by apply elem_of_nil in Ho.
    + reflexivity.
    + apply (bool_decide_unpack _). vm_compute. exact I.
Defined.

(** ** There and back *)

Lemma adjacent_day_back (direction : Direction) (d : DayKey) :
  adjacent_day (opposite direction) (adjacent_day direction d) = d.
Proof. by destruct direction, d. Qed.

Lemma offsetMinutes_opposite (direction : Direction) :
  offsetMinutes (opposite direction) = - offsetMinutes direction.
Proof. by destruct direction. Qed.

(** X26: duplicating a session in one direction and then its copy in the
    other appends two sessions, the second of them on the day of the
    original and, when the times of the original are valid times, from
    its start time to its end time. *)
Theorem duplicateSession_there_and_back (st : State) (before after : list SessionPlan)
    (target : SessionPlan) (direction : Direction) (today : string) :
  sessions st = before ++ target :: after →
  Forall (λ session, s_id session ≠ s_id target) before →
  uuid_of (supply st) ∉ session_ids (sessions st) →
  let st1 := exec (duplicateSession (s_id target) direction today) st in
  ∃ copy back,
    sessions st1 = sessions st ++ [copy]
    ∧ sessions (exec (duplicateSession (s_id copy) (opposite direction) today) st1)
      = sessions st ++ [copy; back]
    ∧ s_day back = s_day target
    ∧ (valid_time (s_start target) → s_start back = s_start target)
    ∧ (valid_time (s_end target) → s_end back = s_end target).
Proof.
  intros Hst Hbefore Hfresh st1. subst st1.
  rewrite duplicateSession_run, Hst, find_first by done. rewrite <-Hst.
  eexists _, _. split; [done|]. rewrite duplicateSession_run. cbn [sessions].
  rewrite (find_first _ (sessions st) []); [|by apply id_absent|done].
  cbn [sessions]. rewrite <-app_assoc. split; [done|]. cbn [copy_of s_day s_start s_end].
  split; [apply adjacent_day_back|]. rewrite offsetMinutes_opposite.
  split; intros (h & m & Hh & Hm & ->); by apply adjustTime_back.
Qed.

Lemma duplicateSession_there_and_back_witness :
  ∃ copy back,
    sessions (exec (duplicateSession (uuid_of 10) Next "Nov 1") initial_state)
    = sessions initial_state ++ [copy]
    ∧ sessions (exec (duplicateSession (s_id copy) Previous "Nov 1")
                  (exec (duplicateSession (uuid_of 10) Next "Nov 1") initial_state))
      = sessions initial_state ++ [copy; back]
    ∧ s_day back = Monday.
Proof.
  destruct (duplicateSession_there_and_back initial_state [] []
              (session_of_form (uuid_of 10) initialSessionForm defaultExercises)
              Next "Nov 1" eq_refl (Forall_nil_2 _))
    as (copy & back & H1 & H2 & H3 & _).
  - vm_compute. intros H. inversion H as [|? ? ? H']; inversion H'.
  - exists copy, back. split; [exact H1|]. split; [exact H2|exact H3].
Defined.
